(** * cachebro: the per-session file cache (packages/sdk/src/cache.ts)

    A shallow embedding of [CacheStore]: the four SQL tables, the statements
    the class runs against them, and the public methods [init], [readFile],
    [onFileChanged], [onFileDeleted], [getStats] and [clear], followed by
    the properties of the read algorithm. *)

From Stdlib Require Import ZArith QArith Qround String Ascii List Lia.
From stdpp Require Import base option gmap strings pretty list fin_maps.

Local Open Scope string_scope.
Local Open Scope Z_scope.

(** ** Results and rows (types.ts and the SCHEMA of cache.ts) *)

(** [FileReadResult]; the optional fields ([diff?], [linesChanged?],
    [totalLines?]) are options. *)
Record FileReadResult := {
  cached : bool;
  content : string;
  diff : option string;
  linesChanged : option Z;
  totalLines : option Z;
  hash : string
}.

Record CacheStats := {
  filesTracked : Z;
  tokensSaved : Z;
  sessionTokensSaved : Z
}.

(** What [computeDiff] of differ.ts hands back; [readFile] uses the three
    fields [diff], [hasChanges] and [linesChanged]. *)
Record DiffResult := {
  dr_diff : string;
  dr_hasChanges : bool;
  dr_linesChanged : Z
}.

(** A row of [file_versions] without its primary key [(path, hash)]. *)
Record FileVersionRow := {
  fv_content : string;
  fv_lines : Z;
  fv_created_at : Z
}.

(** A row of [session_reads] without its primary key [(session_id, path)]. *)
Record SessionReadRow := {
  sr_hash : string;
  sr_read_at : Z
}.

(** The database: each table is a finite map from its primary key to the
    remaining columns. A table that does not exist yet is the empty map.
    Counter values are unbounded integers: they are sums of token estimates
    and stay far below 2^53. *)
Record Db := {
  file_versions : gmap (string * string) FileVersionRow;
  session_reads : gmap (string * string) SessionReadRow;
  stats : gmap string Z;
  session_stats : gmap (string * string) Z
}.

Definition empty_db : Db :=
  {| file_versions := ∅; session_reads := ∅; stats := ∅; session_stats := ∅ |}.

(** The file system as [readFile] sees it: absolute path to the text that
    [readFileSync(absPath, "utf-8")] returns; a path outside the map does
    not exist. Paths that exist but cannot be read as a file (a directory,
    a file without read permission), for which [readFileSync] throws after
    [statSync] has passed, are outside this model. One character of a [string] stands for one code unit of the
    JavaScript string, which is what [text.length] counts. *)
Abbreviation FileSystem := (gmap string string).

(** The error thrown by [statSync] for a path that does not exist. *)
Inductive FsError := ENOENT (path : string).

(** The fields of a [CacheStore] object. [db] is non-null exactly when
    [initialized] is set, so [getDb] never throws after [init]. *)
Record CacheStore := {
  dbPath : string;
  sessionId : string;
  initialized : bool
}.

(** ** What cache.ts imports

    [resolve] of node's path module, the sha256 prefix computed by
    [contentHash] through node's crypto module, and [computeDiff] of
    differ.ts. *)
Class Collaborators := {
  resolve : string → string;
  contentHash : string → string;
  computeDiff : string → string → string → DiffResult
}.

(** ** Pure helpers *)

(** [Math.ceil(text.length * 0.75)]. 0.75 is a dyadic rational, so the
    double product is exact for every length a string can have, and the
    rational computation below is the same number. *)
Definition estimateTokens (text : string) : Z :=
  Qceiling (inject_Z (Z.of_nat (String.length text)) * (75 # 100))%Q.

Definition newline : ascii := "010"%char.

(** [s.split(sep)] for a one-character separator. *)
Fixpoint split (sep : ascii) (s : string) : list string :=
  match s with
  | EmptyString => [EmptyString]
  | String ch rest =>
      if Ascii.eqb ch sep then EmptyString :: split sep rest
      else match split sep rest with
           | seg :: segs => String ch seg :: segs
           | [] => [String ch EmptyString]
           end
  end.

(** [currentContent.split("\n").length] *)
Definition lineCount (text : string) : Z :=
  Z.of_nat (length (split newline text)).

(** The template literal of the unchanged answer. *)
Definition unchangedSummary (lines tokens : Z) : string :=
  "[cachebro: unchanged, " +:+ pretty lines +:+ " lines, "
    +:+ pretty tokens +:+ " tokens saved]".

(** ** SQL statements *)

Definition tokens_saved_key : string := "tokens_saved".

(** [INSERT OR IGNORE INTO stats (key, value) VALUES ('tokens_saved', 0)],
    the only statement of SCHEMA that touches rows. *)
Definition exec_schema (db : Db) : Db :=
  {| file_versions := file_versions db;
     session_reads := session_reads db;
     stats := match stats db !! tokens_saved_key with
              | Some _ => stats db
              | None => <[tokens_saved_key := 0]> (stats db)
              end;
     session_stats := session_stats db |}.

(** [INSERT OR IGNORE INTO file_versions (...) VALUES (?, ?, ?, ?, ?)] *)
Definition insert_or_ignore_file_version
    (path hash content : string) (lines created_at : Z) (db : Db) : Db :=
  {| file_versions :=
       match file_versions db !! (path, hash) with
       | Some _ => file_versions db
       | None => <[(path, hash) :=
                    {| fv_content := content; fv_lines := lines;
                       fv_created_at := created_at |}]> (file_versions db)
       end;
     session_reads := session_reads db;
     stats := stats db;
     session_stats := session_stats db |}.

(** [UPDATE session_reads SET read_at = ? WHERE session_id = ? AND path = ?] *)
Definition update_read_at (now : Z) (sid path : string) (db : Db) : Db :=
  {| file_versions := file_versions db;
     session_reads :=
       alter (λ r, {| sr_hash := sr_hash r; sr_read_at := now |})
             (sid, path) (session_reads db);
     stats := stats db;
     session_stats := session_stats db |}.

(** [UPDATE session_reads SET hash = ?, read_at = ?
     WHERE session_id = ? AND path = ?] *)
Definition update_session_read (hash : string) (now : Z) (sid path : string)
    (db : Db) : Db :=
  {| file_versions := file_versions db;
     session_reads :=
       alter (λ _, {| sr_hash := hash; sr_read_at := now |})
             (sid, path) (session_reads db);
     stats := stats db;
     session_stats := session_stats db |}.

(** [INSERT OR REPLACE INTO session_reads (...) VALUES (?, ?, ?, ?)] *)
Definition insert_or_replace_session_read (sid path hash : string) (now : Z)
    (db : Db) : Db :=
  {| file_versions := file_versions db;
     session_reads :=
       <[(sid, path) := {| sr_hash := hash; sr_read_at := now |}]>
         (session_reads db);
     stats := stats db;
     session_stats := session_stats db |}.

(** [DELETE FROM file_versions WHERE path = ?] *)
Definition delete_file_versions (path : string) (db : Db) : Db :=
  {| file_versions := filter (λ kv, kv.1.1 ≠ path) (file_versions db);
     session_reads := session_reads db;
     stats := stats db;
     session_stats := session_stats db |}.

(** [DELETE FROM session_reads WHERE path = ?] *)
Definition delete_session_reads (path : string) (db : Db) : Db :=
  {| file_versions := file_versions db;
     session_reads := filter (λ kv, kv.1.2 ≠ path) (session_reads db);
     stats := stats db;
     session_stats := session_stats db |}.

(** [SELECT COUNT(DISTINCT path) as c FROM file_versions] *)
Definition count_distinct_paths (db : Db) : Z :=
  Z.of_nat (size (set_map (D := gset string) fst (dom (file_versions db)))).

(** ** CacheStore methods *)

(** [addTokensSaved]: the UPDATE of the global row, which changes nothing
    when the row is missing, then the upsert of the session's row. *)
Definition addTokensSaved (c : CacheStore) (tokens : Z) (db : Db) : Db :=
  {| file_versions := file_versions db;
     session_reads := session_reads db;
     stats := alter (λ v, v + tokens) tokens_saved_key (stats db);
     session_stats :=
       match session_stats db !! (sessionId c, tokens_saved_key) with
       | Some v => <[(sessionId c, tokens_saved_key) := v + tokens]>
                     (session_stats db)
       | None => <[(sessionId c, tokens_saved_key) := tokens]>
                   (session_stats db)
       end |}.

(** [init]: runs SCHEMA once per object. *)
Definition init (c : CacheStore) (db : Db) : CacheStore * Db :=
  if initialized c then (c, db)
  else ({| dbPath := dbPath c; sessionId := sessionId c;
           initialized := true |},
        exec_schema db).

Section Methods.
Context `{Collaborators}.

(** [readFile]. [fs] is the file system and [now] the value of
    [Date.now()] at the call. *)
Definition readFile (c : CacheStore) (fs : FileSystem) (now : Z)
    (filePath : string) (db : Db)
  : (FsError + FileReadResult) * CacheStore * Db :=
  let '(c, db) := init c db in
  let absPath := resolve filePath in
  match fs !! absPath with
  | None => (inl (ENOENT absPath), c, db)
  | Some currentContent =>
    let currentHash := contentHash currentContent in
    let currentLines := lineCount currentContent in
    let fullContent :=
      {| cached := false; content := currentContent; diff := None;
         linesChanged := None; totalLines := Some currentLines;
         hash := currentHash |} in
    match session_reads db !! (sessionId c, absPath) with
    | Some lastRead =>
      let lastHash := sr_hash lastRead in
      if String.eqb lastHash currentHash then
        let tokensSaved := estimateTokens currentContent in
        let db := addTokensSaved c tokensSaved db in
        let db := update_read_at now (sessionId c) absPath db in
        (inr {| cached := true;
                content := unchangedSummary currentLines tokensSaved;
                diff := None;
                linesChanged := Some 0;
                totalLines := Some currentLines;
                hash := currentHash |}, c, db)
      else
        let oldVersion := file_versions db !! (absPath, lastHash) in
        let db := insert_or_ignore_file_version
                    absPath currentHash currentContent currentLines now db in
        let db := update_session_read currentHash now (sessionId c) absPath db in
        match oldVersion with
        | Some old =>
          let diffResult := computeDiff (fv_content old) currentContent filePath in
          if dr_hasChanges diffResult then
            let fullTokens := estimateTokens currentContent in
            let diffTokens := estimateTokens (dr_diff diffResult) in
            let saved := Z.max 0 (fullTokens - diffTokens) in
            let db := addTokensSaved c saved db in
            (inr {| cached := true;
                    content := dr_diff diffResult;
                    diff := Some (dr_diff diffResult);
                    linesChanged := Some (dr_linesChanged diffResult);
                    totalLines := Some currentLines;
                    hash := currentHash |}, c, db)
          else (inr fullContent, c, db)
        | None => (inr fullContent, c, db)
        end
    | None =>
      let db := insert_or_ignore_file_version
                  absPath currentHash currentContent currentLines now db in
      let db := insert_or_replace_session_read
                  (sessionId c) absPath currentHash now db in
      (inr fullContent, c, db)
    end
  end.

(** [onFileChanged]: an empty body. *)
Definition onFileChanged (c : CacheStore) (filePath : string) (db : Db)
  : CacheStore * Db := (c, db).

Definition onFileDeleted (c : CacheStore) (filePath : string) (db : Db)
  : CacheStore * Db :=
  let '(c, db) := init c db in
  let absPath := resolve filePath in
  let db := delete_file_versions absPath db in
  let db := delete_session_reads absPath db in
  (c, db).

Definition getStats (c : CacheStore) (db : Db) : CacheStats * CacheStore * Db :=
  let '(c, db) := init c db in
  ({| filesTracked := count_distinct_paths db;
      tokensSaved := default 0 (stats db !! tokens_saved_key);
      sessionTokensSaved :=
        default 0 (session_stats db !! (sessionId c, tokens_saved_key)) |},
   c, db).

(** [clear]: the three DELETEs and [UPDATE stats SET value = 0]. *)
Definition clear (c : CacheStore) (db : Db) : CacheStore * Db :=
  let '(c, db) := init c db in
  (c, {| file_versions := ∅; session_reads := ∅;
         stats := (λ _, 0) <$> stats db; session_stats := ∅ |}).

End Methods.

(** ** Sequences of calls

    One call is a method invoked on some [CacheStore] object; the objects
    share the database. A [readFile] call carries the file system and the
    clock it observes. *)
Inductive Op :=
| OpReadFile (fs : FileSystem) (now : Z) (filePath : string)
| OpFileChanged (filePath : string)
| OpFileDeleted (filePath : string)
| OpGetStats
| OpClear.

Section Traces.
Context `{Collaborators}.

Definition exec (c : CacheStore) (op : Op) (db : Db) : CacheStore * Db :=
  match op with
  | OpReadFile fs now filePath =>
      let '(_, c, db) := readFile c fs now filePath db in (c, db)
  | OpFileChanged filePath => onFileChanged c filePath db
  | OpFileDeleted filePath => onFileDeleted c filePath db
  | OpGetStats => let '(_, c, db) := getStats c db in (c, db)
  | OpClear => clear c db
  end.

Fixpoint run (calls : list (CacheStore * Op)) (db : Db) : Db :=
  match calls with
  | [] => db
  | (c, op) :: rest => run rest (exec c op db).2
  end.

Definition is_clear (call : CacheStore * Op) : bool :=
  match call.2 with OpClear => true | _ => false end.

(** A [readFile] by session [sid] of a path that resolves to [absPath]. *)
Definition is_read_of (sid absPath : string) (call : CacheStore * Op) : bool :=
  match call.2 with
  | OpReadFile _ _ filePath =>
      String.eqb (sessionId call.1) sid && String.eqb (resolve filePath) absPath
  | _ => false
  end.

End Traces.

(** ** Observations used in the statements *)

(** The two numbers [getStats] reports. *)
Definition globalTokens (db : Db) : Z :=
  default 0 (stats db !! tokens_saved_key).

Definition sessionTokens (sid : string) (db : Db) : Z :=
  default 0 (session_stats db !! (sid, tokens_saved_key)).

(** An object that has run [init] works on a database that has the
    [tokens_saved] row: SCHEMA inserted it and no statement deletes it. *)
Definition store_ok (c : CacheStore) (db : Db) : Prop :=
  initialized c = true → is_Some (stats db !! tokens_saved_key).

(** Every session pointer names a stored version of its path. *)
Definition pointers_valid (db : Db) : Prop :=
  map_Forall (λ k r, is_Some (file_versions db !! (k.2, sr_hash r)))
             (session_reads db).

#[global] Instance pointers_valid_dec db : Decision (pointers_valid db).
Proof. unfold pointers_valid. apply _. Defined.

(** The rows of [file_versions] whose primary key is [(path, hash)]. *)
Definition version_rows (path hash : string) (db : Db)
  : list (string * string * FileVersionRow) :=
  filter (λ kv, kv.1 = (path, hash)) (map_to_list (file_versions db)).

(** A line of text: no newline inside. *)
Definition is_line (s : string) : Prop :=
  newline ∉ String.list_ascii_of_string s.

(** [lines.join("\n")] *)
Fixpoint join_lines (lines : list string) : string :=
  match lines with
  | [] => EmptyString
  | [l] => l
  | l :: rest => l +:+ String newline (join_lines rest)
  end.

(** The three answers of [readFile], as its [return] statements build them. *)
Section Answers.
Context `{Collaborators}.

Definition coldAnswer (currentContent : string) : FileReadResult :=
  {| cached := false; content := currentContent; diff := None;
     linesChanged := None; totalLines := Some (lineCount currentContent);
     hash := contentHash currentContent |}.

Definition unchangedAnswer (currentContent : string) : FileReadResult :=
  {| cached := true;
     content := unchangedSummary (lineCount currentContent)
                                 (estimateTokens currentContent);
     diff := None; linesChanged := Some 0;
     totalLines := Some (lineCount currentContent);
     hash := contentHash currentContent |}.

Definition diffAnswer (currentContent : string) (d : DiffResult)
  : FileReadResult :=
  {| cached := true; content := dr_diff d; diff := Some (dr_diff d);
     linesChanged := Some (dr_linesChanged d);
     totalLines := Some (lineCount currentContent);
     hash := contentHash currentContent |}.

End Answers.

(** Everything the other methods rely on after their [await this.init()]. *)
Record init_post (c : CacheStore) (db : Db) (c0 : CacheStore) (db0 : Db) : Prop := {
  ip_sid : sessionId c0 = sessionId c;
  ip_flag : initialized c0 = true;
  ip_versions : file_versions db0 = file_versions db;
  ip_reads : session_reads db0 = session_reads db;
  ip_session_stats : session_stats db0 = session_stats db;
  ip_global : globalTokens db0 = globalTokens db;
  ip_row : store_ok c db → is_Some (stats db0 !! tokens_saved_key);
  ip_row_kept : is_Some (stats db !! tokens_saved_key) → db0 = db;
  ip_again : initialized c = true → c0 = c ∧ db0 = db
}.

Section Outcomes.
Context `{Collaborators}.

(** The two statements every changed read runs before it looks at the
    old version. *)
Definition store_current (c : CacheStore) (now : Z) (filePath C : string)
    (db : Db) : Db :=
  update_session_read (contentHash C) now (sessionId c) (resolve filePath)
    (insert_or_ignore_file_version
       (resolve filePath) (contentHash C) C (lineCount C) now db).

(** The five ways a [readFile] call can end, each with the object and the
    database it leaves; [init c db] is what the first line of the method
    produces. *)
Inductive read_case (c : CacheStore) (fs : FileSystem) (now : Z)
    (filePath : string) (db : Db)
  : (FsError + FileReadResult) * CacheStore * Db → Prop :=
| case_missing :
    fs !! resolve filePath = None →
    read_case c fs now filePath db
      (inl (ENOENT (resolve filePath)), (init c db).1, (init c db).2)
| case_cold C :
    fs !! resolve filePath = Some C →
    session_reads db !! (sessionId c, resolve filePath) = None →
    read_case c fs now filePath db
      (inr (coldAnswer C), (init c db).1,
       insert_or_replace_session_read
         (sessionId c) (resolve filePath) (contentHash C) now
         (insert_or_ignore_file_version
            (resolve filePath) (contentHash C) C (lineCount C) now
            (init c db).2))
| case_unchanged C last :
    fs !! resolve filePath = Some C →
    session_reads db !! (sessionId c, resolve filePath) = Some last →
    sr_hash last = contentHash C →
    read_case c fs now filePath db
      (inr (unchangedAnswer C), (init c db).1,
       update_read_at now (sessionId c) (resolve filePath)
         (addTokensSaved c (estimateTokens C) (init c db).2))
| case_diff C last old :
    fs !! resolve filePath = Some C →
    session_reads db !! (sessionId c, resolve filePath) = Some last →
    sr_hash last ≠ contentHash C →
    file_versions db !! (resolve filePath, sr_hash last) = Some old →
    dr_hasChanges (computeDiff (fv_content old) C filePath) = true →
    read_case c fs now filePath db
      (inr (diffAnswer C (computeDiff (fv_content old) C filePath)),
       (init c db).1,
       addTokensSaved c
         (Z.max 0 (estimateTokens C
                   - estimateTokens
                       (dr_diff (computeDiff (fv_content old) C filePath))))
         (store_current c now filePath C (init c db).2))
| case_fallback C last :
    fs !! resolve filePath = Some C →
    session_reads db !! (sessionId c, resolve filePath) = Some last →
    sr_hash last ≠ contentHash C →
    (file_versions db !! (resolve filePath, sr_hash last) = None
     ∨ ∃ old, file_versions db !! (resolve filePath, sr_hash last) = Some old
              ∧ dr_hasChanges (computeDiff (fv_content old) C filePath)
                = false) →
    read_case c fs now filePath db
      (inr (coldAnswer C), (init c db).1,
       store_current c now filePath C (init c db).2).

End Outcomes.

(** ** Fixtures

    A file and two sessions in the manner of test/smoke.ts, and stand-ins
    for the imported functions so that the model runs on them: paths are
    already absolute, the digest is a small checksum, and the diff only
    compares the two texts. *)
Definition demoHash (text : string) : string :=
  pretty (fold_right (λ ch acc, (Z.of_N (N_of_ascii ch) + 31 * acc) mod 65536)
            0 (list_ascii_of_string text)).

Definition demoDiff (oldText newText label : string) : DiffResult :=
  {| dr_diff := "--- a/" +:+ label +:+ String newline ("+++ b/" +:+ label);
     dr_hasChanges := negb (String.eqb oldText newText);
     dr_linesChanged := Z.abs (lineCount newText - lineCount oldText) + 1 |}.

Definition demoCollaborators : Collaborators :=
  {| resolve := λ p, p; contentHash := demoHash; computeDiff := demoDiff |}.

Definition FILE_PATH : string := "/tmp/.tmp_test/example.ts".

Definition CONTENT_1 : string :=
  join_lines ["function hello() {"; "  return 1;"; "}"].

Definition CONTENT_2 : string :=
  join_lines ["function hello() {"; "  return 2;"; "  // done"; "}"].

Definition fs_1 : FileSystem := {[ FILE_PATH := CONTENT_1 ]}.
Definition fs_2 : FileSystem := {[ FILE_PATH := CONTENT_2 ]}.

Definition session_1 : CacheStore :=
  {| dbPath := "test.db"; sessionId := "test-session-1"; initialized := false |}.

Definition session_2 : CacheStore :=
  {| dbPath := "test.db"; sessionId := "test-session-2"; initialized := false |}.

Definition last_dangling : SessionReadRow :=
  {| sr_hash := "0000"; sr_read_at := 1 |}.

(** A database in which session 1 points at a version that is not stored. *)
Definition db_dangling : Db :=
  {| file_versions := ∅;
     session_reads :=
       {[ ("test-session-1", FILE_PATH)
          := last_dangling ]};
     stats := {[ tokens_saved_key := 0 ]};
     session_stats := ∅ |}.

(** The database after session 1 has read [CONTENT_1] once, and the two
    rows that read stores. *)
Definition db_read_once : Db :=
  (@readFile demoCollaborators session_1 fs_1 1 FILE_PATH empty_db).2.

Definition last_1 : SessionReadRow :=
  {| sr_hash := demoHash CONTENT_1; sr_read_at := 1 |}.

Definition version_1 : FileVersionRow :=
  {| fv_content := CONTENT_1; fv_lines := 3; fv_created_at := 1 |}.

(** What session 1 does in test/smoke.ts before session 2 appears. *)
Definition calls_session_1 : list (CacheStore * Op) :=
  [(session_1, OpReadFile fs_1 1 FILE_PATH);
   (session_1, OpReadFile fs_1 2 FILE_PATH);
   (session_1, OpReadFile fs_2 3 FILE_PATH);
   (session_1, OpGetStats)].

(** ** Further observations of the store *)

(** The paths that [COUNT(DISTINCT path)] counts. *)
Definition tracked_paths (db : Db) : gset string :=
  set_map fst (dom (file_versions db)).

(** [SELECT SUM(value) FROM session_stats]: the store only ever writes
    rows with the key [tokens_saved] there. *)
Definition session_total (db : Db) : Z :=
  map_fold (λ _ v acc, v + acc) 0 (session_stats db).

(** The number of newline characters of a text. *)
Fixpoint count_newlines (s : string) : nat :=
  match s with
  | EmptyString => 0%nat
  | String ch rest =>
      if Ascii.eqb ch newline then S (count_newlines rest)
      else count_newlines rest
  end.

(** The global row exists and holds the sum of the sessions' rows. *)
Definition counters_agree (db : Db) : Prop :=
  is_Some (stats db !! tokens_saved_key)
  ∧ globalTokens db = session_total db.

(** Calls that delete rows of [file_versions]. *)
Definition is_purge (call : CacheStore * Op) : bool :=
  match call.2 with
  | OpFileDeleted _ | OpClear => true
  | _ => false
  end.

Section StoredVersions.
Context `{Collaborators}.

(** A stored version sits under the hash of its own content and carries
    that content's line count. *)
Definition versions_consistent (db : Db) : Prop :=
  map_Forall (λ k v, contentHash (fv_content v) = k.2
                     ∧ fv_lines v = lineCount (fv_content v))
             (file_versions db).

End StoredVersions.

(** ** The watcher's handler (packages/sdk/src/watcher.ts)

    [handleChange] runs when a debounce timer fires; [filePath] is already
    absolute there and [existsSync] looks it up as it is. Neither cache
    method throws, so the [catch] is never entered. *)
Section Watcher.
Context `{Collaborators}.

Definition handleChange (c : CacheStore) (fs : FileSystem) (filePath : string)
    (db : Db) : CacheStore * Db :=
  match fs !! filePath with
  | Some _ => onFileChanged c filePath db
  | None => onFileDeleted c filePath db
  end.

End Watcher.

(** ** The tool handlers (packages/cli/src/mcp.ts) *)

(** What a handler returns: the text of its single content item and the
    [isError] flag (absent means false). *)
Record ToolResult := {
  tr_text : string;
  tr_isError : bool
}.

(** What the handlers take from the runtime: [Number.prototype.toLocaleString]
    and the [message] of the error [statSync] throws. *)
Class Runtime := {
  toLocaleString : Z → string;
  errorMessage : FsError → string
}.

(** [list.join(sep)] *)
Fixpoint join (sep : string) (items : list string) : string :=
  match items with
  | [] => EmptyString
  | [x] => x
  | x :: rest => x +:+ sep +:+ join sep rest
  end.

(** A template literal prints a missing number as [undefined]. *)
Definition show_number (n : option Z) : string :=
  match n with
  | Some n => pretty n
  | None => "undefined"
  end.

(** [result.linesChanged === 0] *)
Definition is_zero (n : option Z) : bool :=
  match n with
  | Some 0 => true
  | _ => false
  end.

(** Truthiness of [result.diff]: present and not the empty string. *)
Definition truthy (s : option string) : bool :=
  match s with
  | Some (String _ _) => true
  | _ => false
  end.

Definition nl : string := String newline EmptyString.

Section Tools.
Context `{Collaborators} `{Runtime}.

(** The line the handlers append about the session's savings. *)
Definition savings_footer (saved : Z) : string :=
  nl +:+ nl +:+ "[cachebro: ~" +:+ toLocaleString saved
    +:+ " tokens saved this session. Report this to the user when you complete their task.]".

(** The tool [read_file]. *)
Definition read_file_tool (c : CacheStore) (fs : FileSystem) (now : Z)
    (path : string) (db : Db) : ToolResult * CacheStore * Db :=
  match readFile c fs now path db with
  | (inr result, c, db) =>
      let text :=
        if cached result && is_zero (linesChanged result) then content result
        else if cached result && truthy (diff result) then
          "[cachebro: " +:+ show_number (linesChanged result)
            +:+ " lines changed out of " +:+ show_number (totalLines result)
            +:+ "]" +:+ nl +:+ default EmptyString (diff result)
        else content result in
      if cached result then
        let '(stats, c, db) := getStats c db in
        ({| tr_text := text +:+ savings_footer (sessionTokensSaved stats);
            tr_isError := false |}, c, db)
      else ({| tr_text := text; tr_isError := false |}, c, db)
  | (inl e, c, db) =>
      ({| tr_text := "Error: " +:+ errorMessage e; tr_isError := true |}, c, db)
  end.

(** One turn of the loop of [read_files]: the section pushed for [path]. *)
Definition read_files_section (c : CacheStore) (fs : FileSystem) (now : Z)
    (path : string) (db : Db) : string * CacheStore * Db :=
  match readFile c fs now path db with
  | (inr result, c, db) =>
      let text :=
        if cached result && is_zero (linesChanged result) then
          "=== " +:+ path +:+ " ===" +:+ nl +:+ content result
        else if cached result && truthy (diff result) then
          "=== " +:+ path +:+ " [" +:+ show_number (linesChanged result)
            +:+ " lines changed out of " +:+ show_number (totalLines result)
            +:+ "] ===" +:+ nl +:+ default EmptyString (diff result)
        else "=== " +:+ path +:+ " ===" +:+ nl +:+ content result in
      (text, c, db)
  | (inl e, c, db) =>
      ("=== " +:+ path +:+ " ===" +:+ nl +:+ "Error: " +:+ errorMessage e,
       c, db)
  end.

(** The loop of [read_files]; each path comes with the file system and the
    clock its read observes. *)
Fixpoint read_files_loop (c : CacheStore)
    (reads : list (FileSystem * Z * string)) (db : Db)
  : list string * CacheStore * Db :=
  match reads with
  | [] => ([], c, db)
  | (fs, now, path) :: rest =>
      let '(text, c, db) := read_files_section c fs now path db in
      let '(results, c, db) := read_files_loop c rest db in
      (text :: results, c, db)
  end.

(** The tool [read_files]. *)
Definition read_files_tool (c : CacheStore)
    (reads : list (FileSystem * Z * string)) (db : Db)
  : ToolResult * CacheStore * Db :=
  let '(results, c, db) := read_files_loop c reads db in
  let '(stats, c, db) := getStats c db in
  let footer :=
    if 0 <? sessionTokensSaved stats
    then savings_footer (sessionTokensSaved stats)
    else EmptyString in
  ({| tr_text := join (nl +:+ nl) results +:+ footer; tr_isError := false |},
   c, db).

(** The tool [cache_status]. *)
Definition cache_status_tool (c : CacheStore) (db : Db)
  : ToolResult * CacheStore * Db :=
  let '(stats, c, db) := getStats c db in
  ({| tr_text :=
        join nl
          ["cachebro status:";
           "  Files tracked: " +:+ pretty (filesTracked stats);
           "  Tokens saved (this session): ~"
             +:+ toLocaleString (sessionTokensSaved stats);
           "  Tokens saved (all sessions): ~"
             +:+ toLocaleString (tokensSaved stats)];
      tr_isError := false |}, c, db).

(** The tool [cache_clear]. *)
Definition cache_clear_tool (c : CacheStore) (db : Db)
  : ToolResult * CacheStore * Db :=
  let '(c, db) := clear c db in
  ({| tr_text := "Cache cleared."; tr_isError := false |}, c, db).

End Tools.

(** The reads of a batch as calls of the store. *)
Definition read_calls (c : CacheStore)
    (reads : list (FileSystem * Z * string)) : list (CacheStore * Op) :=
  map (λ r, (c, OpReadFile r.1.1 r.1.2 r.2)) reads.

(** A runtime for the fixtures: no digit grouping, node's wording of the
    error. *)
Definition demoRuntime : Runtime :=
  {| toLocaleString := λ n, pretty n;
     errorMessage := λ e,
       match e with
       | ENOENT path =>
           "ENOENT: no such file or directory, stat '" +:+ path +:+ "'"
       end |}.

Definition OTHER_PATH : string := "/tmp/.tmp_test/example2.ts".

(** A file system that holds both fixture files. *)
Definition fs_both : FileSystem :=
  <[OTHER_PATH := CONTENT_2]> fs_1.

(** The database after both sessions have read [CONTENT_1]. *)
Definition db_two_sessions : Db :=
  (@readFile demoCollaborators session_2 fs_1 2 FILE_PATH db_read_once).2.

(** [CONTENT_1] with its last line terminated by a newline, the way
    test/smoke.ts writes its file. *)
Definition CONTENT_1_TERMINATED : string := CONTENT_1 +:+ nl.

Definition fs_1_terminated : FileSystem :=
  {[ FILE_PATH := CONTENT_1_TERMINATED ]}.

(** The object and the database of a server after the [cache.init()] of
    [startMcpServer]. *)
Definition server_session : CacheStore :=
  {| dbPath := "cache.db"; sessionId := "mcp-session"; initialized := true |}.

Definition db_server : Db := exec_schema empty_db.

(** A batch whose second path does not exist. *)
Definition batch_reads : list (FileSystem * Z * string) :=
  [(fs_1, 1, FILE_PATH); (fs_1, 2, OTHER_PATH); (fs_1, 3, FILE_PATH)].

(** * Properties *)

(** ** The token estimate *)

Lemma estimateTokens_ceil text :
  let n := Z.of_nat (String.length text) in
  3 * n ≤ 4 * estimateTokens text < 3 * n + 4.
Proof.
  intros n. unfold estimateTokens, Qceiling, Qfloor. fold n.
  cbn [Qmult Qopp Qnum Qden inject_Z].
  change (Z.pos (1 * 100)) with 100.
  pose proof (Z.div_mod (- (n * 75)) 100 ltac:(lia)) as Hdm.
  pose proof (Z.mod_pos_bound (- (n * 75)) 100 ltac:(lia)) as Hb.
  lia.
Qed.

Lemma estimateTokens_nonneg text : 0 ≤ estimateTokens text.
Proof. pose proof (estimateTokens_ceil text) as Hc. cbn zeta in Hc. lia. Qed.

(** ** Counters *)

Lemma sessionTokens_addTokensSaved c tokens db :
  sessionTokens (sessionId c) (addTokensSaved c tokens db)
  = sessionTokens (sessionId c) db + tokens.
Proof.
  unfold sessionTokens, addTokensSaved; cbn [session_stats].
  destruct (session_stats db !! (sessionId c, tokens_saved_key)) as [v|];
    rewrite lookup_insert_eq; reflexivity.
Qed.

Lemma sessionTokens_addTokensSaved_ne c tokens db sid :
  sid ≠ sessionId c →
  sessionTokens sid (addTokensSaved c tokens db) = sessionTokens sid db.
Proof.
  intros Hne. unfold sessionTokens, addTokensSaved; cbn [session_stats].
  destruct (session_stats db !! (sessionId c, tokens_saved_key)) as [v|];
    rewrite lookup_insert_ne; congruence.
Qed.

Lemma globalTokens_addTokensSaved c tokens db :
  is_Some (stats db !! tokens_saved_key) →
  globalTokens (addTokensSaved c tokens db) = globalTokens db + tokens.
Proof.
  intros [v Hv]. unfold globalTokens, addTokensSaved; cbn [stats].
  rewrite lookup_alter_eq, Hv. reflexivity.
Qed.

Lemma globalTokens_addTokensSaved_le c tokens db :
  0 ≤ tokens → globalTokens db ≤ globalTokens (addTokensSaved c tokens db).
Proof.
  intros Hpos. unfold globalTokens, addTokensSaved; cbn [stats].
  rewrite lookup_alter_eq.
  destruct (stats db !! tokens_saved_key) as [v|]; cbn; lia.
Qed.

Lemma stats_row_addTokensSaved c tokens db :
  is_Some (stats db !! tokens_saved_key) →
  is_Some (stats (addTokensSaved c tokens db) !! tokens_saved_key).
Proof.
  intros [v Hv]. unfold addTokensSaved; cbn [stats].
  rewrite lookup_alter_eq, Hv. eexists; reflexivity.
Qed.

(** ** init *)

Lemma globalTokens_exec_schema db :
  globalTokens (exec_schema db) = globalTokens db.
Proof.
  unfold globalTokens, exec_schema; cbn [stats].
  destruct (stats db !! tokens_saved_key) as [v|] eqn:Hrow.
  - rewrite Hrow. reflexivity.
  - rewrite lookup_insert_eq. reflexivity.
Qed.

Lemma stats_row_exec_schema db :
  is_Some (stats (exec_schema db) !! tokens_saved_key).
Proof.
  unfold exec_schema; cbn [stats].
  destruct (stats db !! tokens_saved_key) as [v|] eqn:Hrow.
  - rewrite Hrow. eexists; reflexivity.
  - rewrite lookup_insert_eq. eexists; reflexivity.
Qed.

Lemma exec_schema_id db :
  is_Some (stats db !! tokens_saved_key) → exec_schema db = db.
Proof.
  intros [v Hv]. unfold exec_schema. rewrite Hv. destruct db; reflexivity.
Qed.

Lemma init_inv c db c0 db0 : init c db = (c0, db0) → init_post c db c0 db0.
Proof.
  unfold init. destruct (initialized c) eqn:Hflag; intros [= <- <-].
  - split; auto.
  - split; cbn [sessionId initialized];
      auto using globalTokens_exec_schema, exec_schema_id.
    + intros _. apply stats_row_exec_schema.
    + congruence.
Qed.

Lemma sessionTokens_ext sid db db' :
  session_stats db' = session_stats db →
  sessionTokens sid db' = sessionTokens sid db.
Proof. unfold sessionTokens. intros ->. reflexivity. Qed.

(** ** The branches of readFile *)

Section ReadFile.
Context `{Collaborators}.

Lemma addTokensSaved_sid c c' tokens db :
  sessionId c' = sessionId c →
  addTokensSaved c' tokens db = addTokensSaved c tokens db.
Proof. unfold addTokensSaved. intros ->. reflexivity. Qed.

Lemma readFile_missing c fs now filePath db :
  fs !! resolve filePath = None →
  readFile c fs now filePath db
  = (inl (ENOENT (resolve filePath)), (init c db).1, (init c db).2).
Proof.
  intros Hfs. unfold readFile. destruct (init c db) as [c0 db0].
  rewrite Hfs. reflexivity.
Qed.

Lemma readFile_cold c fs now filePath db C :
  fs !! resolve filePath = Some C →
  session_reads db !! (sessionId c, resolve filePath) = None →
  readFile c fs now filePath db
  = (inr (coldAnswer C), (init c db).1,
     insert_or_replace_session_read
       (sessionId c) (resolve filePath) (contentHash C) now
       (insert_or_ignore_file_version
          (resolve filePath) (contentHash C) C (lineCount C) now
          (init c db).2)).
Proof.
  intros Hfs Hptr. unfold readFile.
  destruct (init c db) as [c0 db0] eqn:Hinit.
  destruct (init_inv _ _ _ _ Hinit) as [Hsid _ _ Hreads _ _ _ _ _].
  rewrite Hfs, Hsid, Hreads, Hptr. reflexivity.
Qed.

Lemma readFile_unchanged c fs now filePath db C last :
  fs !! resolve filePath = Some C →
  session_reads db !! (sessionId c, resolve filePath) = Some last →
  sr_hash last = contentHash C →
  readFile c fs now filePath db
  = (inr (unchangedAnswer C), (init c db).1,
     update_read_at now (sessionId c) (resolve filePath)
       (addTokensSaved c (estimateTokens C) (init c db).2)).
Proof.
  intros Hfs Hptr Hsame. unfold readFile.
  destruct (init c db) as [c0 db0] eqn:Hinit.
  destruct (init_inv _ _ _ _ Hinit) as [Hsid _ _ Hreads _ _ _ _ _].
  rewrite Hfs, Hsid, Hreads, Hptr, Hsame, String.eqb_refl.
  rewrite (addTokensSaved_sid c c0) by exact Hsid. reflexivity.
Qed.

Lemma readFile_diff c fs now filePath db C last old :
  fs !! resolve filePath = Some C →
  session_reads db !! (sessionId c, resolve filePath) = Some last →
  sr_hash last ≠ contentHash C →
  file_versions db !! (resolve filePath, sr_hash last) = Some old →
  dr_hasChanges (computeDiff (fv_content old) C filePath) = true →
  readFile c fs now filePath db
  = (inr (diffAnswer C (computeDiff (fv_content old) C filePath)),
     (init c db).1,
     addTokensSaved c
       (Z.max 0 (estimateTokens C
                 - estimateTokens
                     (dr_diff (computeDiff (fv_content old) C filePath))))
       (store_current c now filePath C (init c db).2)).
Proof.
  intros Hfs Hptr Hdiff Hold Hchg. unfold readFile, store_current.
  destruct (init c db) as [c0 db0] eqn:Hinit.
  destruct (init_inv _ _ _ _ Hinit) as [Hsid _ Hvers Hreads _ _ _ _ _].
  apply String.eqb_neq in Hdiff.
  rewrite Hfs, Hsid, Hreads, Hptr, Hdiff, Hvers, Hold, Hchg.
  rewrite (addTokensSaved_sid c c0) by exact Hsid. reflexivity.
Qed.

Lemma readFile_fallback c fs now filePath db C last :
  fs !! resolve filePath = Some C →
  session_reads db !! (sessionId c, resolve filePath) = Some last →
  sr_hash last ≠ contentHash C →
  (file_versions db !! (resolve filePath, sr_hash last) = None
   ∨ ∃ old, file_versions db !! (resolve filePath, sr_hash last) = Some old
            ∧ dr_hasChanges (computeDiff (fv_content old) C filePath) = false) →
  readFile c fs now filePath db
  = (inr (coldAnswer C), (init c db).1,
     store_current c now filePath C (init c db).2).
Proof.
  intros Hfs Hptr Hdiff Hold. unfold readFile, store_current.
  destruct (init c db) as [c0 db0] eqn:Hinit.
  destruct (init_inv _ _ _ _ Hinit) as [Hsid _ Hvers Hreads _ _ _ _ _].
  apply String.eqb_neq in Hdiff.
  rewrite Hfs, Hsid, Hreads, Hptr, Hdiff, Hvers.
  destruct Hold as [-> | (old & -> & ->)]; reflexivity.
Qed.

End ReadFile.

Section ReadCases.
Context `{Collaborators}.

Lemma readFile_case c fs now filePath db :
  read_case c fs now filePath db (readFile c fs now filePath db).
Proof.
  destruct (fs !! resolve filePath) as [C|] eqn:Hfs.
  2: { rewrite readFile_missing by assumption. by constructor. }
  destruct (session_reads db !! (sessionId c, resolve filePath))
    as [last|] eqn:Hptr.
  2: { rewrite (readFile_cold _ _ _ _ _ C) by assumption. by constructor. }
  destruct (decide (sr_hash last = contentHash C)) as [Hsame|Hdiff].
  { rewrite (readFile_unchanged _ _ _ _ _ C last) by assumption.
    by econstructor. }
  destruct (file_versions db !! (resolve filePath, sr_hash last))
    as [old|] eqn:Hold.
  2: { rewrite (readFile_fallback _ _ _ _ _ C last) by auto.
       econstructor; eauto. }
  destruct (dr_hasChanges (computeDiff (fv_content old) C filePath)) eqn:Hchg.
  - rewrite (readFile_diff _ _ _ _ _ C last old) by assumption.
    by econstructor.
  - rewrite (readFile_fallback _ _ _ _ _ C last) by eauto.
    econstructor; eauto.
Qed.

End ReadCases.

(** Case analysis on a finished call: [db0] is the database after [init]
    and [Hpost] what [init] guarantees about it. *)
Ltac read_cases Hcall c db :=
  let Hcase := fresh "Hcase" in
  match type of Hcall with
  | @readFile ?H c ?fs ?now ?p db = _ =>
      pose proof (@readFile_case H c fs now p db) as Hcase;
      rewrite Hcall in Hcase;
      pose proof (init_inv c db _ _ (surjective_pairing (init c db))) as Hpost;
      inversion Hcase; subst; clear Hcase;
      set (db0 := (init c db).2) in *; clearbody db0
  end.

(** ** What one readFile does to the counters *)

Section Savings.
Context `{Collaborators}.

Lemma readFile_savings c fs now filePath db r c' db' :
  readFile c fs now filePath db = (r, c', db') →
  ∃ amount,
    0 ≤ amount
    ∧ sessionTokens (sessionId c) db' = sessionTokens (sessionId c) db + amount
    ∧ (∀ sid, sid ≠ sessionId c → sessionTokens sid db' = sessionTokens sid db)
    ∧ globalTokens db ≤ globalTokens db'
    ∧ (store_ok c db → globalTokens db' = globalTokens db + amount).
Proof.
  intros Hcall. read_cases Hcall c db;
    destruct Hpost as [Hsid _ _ _ Hss Hglob Hrow _ _];
    pose proof (λ sid, sessionTokens_ext sid db db0 Hss) as Hs0;
    rewrite <- Hglob; setoid_rewrite <- Hs0; clear Hs0 Hglob Hss.
  - exists 0. split_and!; intros; lia.
  - exists 0. split_and!; intros;
      first [reflexivity | symmetry; apply Z.add_0_r].
  - exists (estimateTokens C).
    pose proof (estimateTokens_nonneg C) as Hpos.
    split_and!; [lia | | | | ].
    + exact (sessionTokens_addTokensSaved c _ db0).
    + intros sid Hne. exact (sessionTokens_addTokensSaved_ne c _ db0 sid Hne).
    + exact (globalTokens_addTokensSaved_le c _ db0 Hpos).
    + intros Hok. exact (globalTokens_addTokensSaved c _ db0 (Hrow Hok)).
  - set (amount := Z.max 0 _).
    exists amount. assert (0 ≤ amount) as Hpos by (subst amount; lia).
    set (db1 := store_current c now filePath C db0).
    change (sessionTokens ?s db0) with (sessionTokens s db1).
    change (globalTokens db0) with (globalTokens db1).
    split_and!; [lia | | | | ].
    + exact (sessionTokens_addTokensSaved c _ db1).
    + intros sid Hne. exact (sessionTokens_addTokensSaved_ne c _ db1 sid Hne).
    + exact (globalTokens_addTokensSaved_le c _ db1 Hpos).
    + intros Hok. exact (globalTokens_addTokensSaved c _ db1 (Hrow Hok)).
  - exists 0. split_and!; intros;
      first [reflexivity | symmetry; apply Z.add_0_r].
Qed.

End Savings.

(** ** Statements and the pointer invariant *)

Lemma pointers_valid_lookup db :
  pointers_valid db ↔
  ∀ sid path r, session_reads db !! (sid, path) = Some r →
                is_Some (file_versions db !! (path, sr_hash r)).
Proof.
  unfold pointers_valid. rewrite map_Forall_lookup. split.
  - intros Hall sid path r Hr. exact (Hall (sid, path) r Hr).
  - intros Hall [sid path] r Hr. exact (Hall sid path r Hr).
Qed.

Lemma insert_or_ignore_present path hash content lines t db :
  is_Some (file_versions
             (insert_or_ignore_file_version path hash content lines t db)
           !! (path, hash)).
Proof.
  unfold insert_or_ignore_file_version; cbn [file_versions].
  destruct (file_versions db !! (path, hash)) as [v|] eqn:Hrow.
  - rewrite Hrow. by eexists.
  - rewrite lookup_insert_eq. by eexists.
Qed.

Lemma insert_or_ignore_kept path hash content lines t db k v :
  file_versions db !! k = Some v →
  file_versions (insert_or_ignore_file_version path hash content lines t db)
    !! k = Some v.
Proof.
  intros Hk. unfold insert_or_ignore_file_version; cbn [file_versions].
  destruct (file_versions db !! (path, hash)) as [w|] eqn:Hrow; [done|].
  rewrite lookup_insert_ne; [done|]. congruence.
Qed.

Lemma insert_or_ignore_existing path hash content lines t db :
  is_Some (file_versions db !! (path, hash)) →
  insert_or_ignore_file_version path hash content lines t db = db.
Proof.
  intros [v Hv]. unfold insert_or_ignore_file_version. rewrite Hv.
  by destruct db.
Qed.

Lemma insert_or_ignore_fresh path hash content lines t db :
  file_versions db !! (path, hash) = None →
  file_versions (insert_or_ignore_file_version path hash content lines t db)
    !! (path, hash)
  = Some {| fv_content := content; fv_lines := lines; fv_created_at := t |}.
Proof.
  intros Hnone. unfold insert_or_ignore_file_version; cbn [file_versions].
  rewrite Hnone. apply lookup_insert_eq.
Qed.

Lemma pointers_valid_ext db db' :
  file_versions db' = file_versions db →
  session_reads db' = session_reads db →
  pointers_valid db → pointers_valid db'.
Proof. unfold pointers_valid. by intros -> ->. Qed.

Lemma pointers_valid_insert_or_ignore path hash content lines t db :
  pointers_valid db →
  pointers_valid (insert_or_ignore_file_version path hash content lines t db).
Proof.
  rewrite !pointers_valid_lookup. intros Hall sid q r Hr.
  destruct (Hall sid q r Hr) as [v Hv].
  exists v. by apply insert_or_ignore_kept.
Qed.

Lemma pointers_valid_update_read_at now sid path db :
  pointers_valid db → pointers_valid (update_read_at now sid path db).
Proof.
  rewrite !pointers_valid_lookup. intros Hall sid' q r.
  unfold update_read_at; cbn [session_reads file_versions].
  rewrite lookup_alter. case_decide as Hk.
  - destruct (session_reads db !! (sid, path)) as [r0|] eqn:Hr0; [|done].
    intros [= <-]. cbn [sr_hash]. injection Hk as <- <-. by eapply Hall.
  - apply Hall.
Qed.

Lemma pointers_valid_update_session_read hash now sid path db :
  is_Some (file_versions db !! (path, hash)) →
  pointers_valid db →
  pointers_valid (update_session_read hash now sid path db).
Proof.
  rewrite !pointers_valid_lookup. intros Hnew Hall sid' q r.
  unfold update_session_read; cbn [session_reads file_versions].
  rewrite lookup_alter. case_decide as Hk.
  - destruct (session_reads db !! (sid, path)) as [r0|] eqn:Hr0; [|done].
    intros [= <-]. cbn [sr_hash]. by injection Hk as <- <-.
  - apply Hall.
Qed.

Lemma pointers_valid_insert_or_replace sid path hash now db :
  is_Some (file_versions db !! (path, hash)) →
  pointers_valid db →
  pointers_valid (insert_or_replace_session_read sid path hash now db).
Proof.
  rewrite !pointers_valid_lookup. intros Hnew Hall sid' q r.
  unfold insert_or_replace_session_read; cbn [session_reads file_versions].
  rewrite lookup_insert. case_decide as Hk.
  - intros [= <-]. cbn [sr_hash]. by injection Hk as <- <-.
  - apply Hall.
Qed.

Lemma pointers_valid_purge path db :
  pointers_valid db →
  pointers_valid (delete_session_reads path (delete_file_versions path db)).
Proof.
  rewrite !pointers_valid_lookup. intros Hall sid q r.
  unfold delete_session_reads, delete_file_versions;
    cbn [session_reads file_versions].
  rewrite map_lookup_filter_Some. cbn [fst snd]. intros [Hr Hq].
  destruct (Hall sid q r Hr) as [v Hv]. exists v.
  by apply map_lookup_filter_Some.
Qed.

Lemma pointers_valid_empty db :
  session_reads db = ∅ → pointers_valid db.
Proof. unfold pointers_valid. intros ->. apply map_Forall_empty. Qed.

(** ** What one readFile does to the tables *)

Section ReadTables.
Context `{Collaborators}.

(** After a read that found the file, the session points at its hash. *)
Lemma readFile_pointer c fs now filePath db C r c' db' :
  readFile c fs now filePath db = (r, c', db') →
  fs !! resolve filePath = Some C →
  sr_hash <$> session_reads db' !! (sessionId c, resolve filePath)
  = Some (contentHash C).
Proof.
  intros Hcall Hfs. read_cases Hcall c db;
    destruct Hpost as [_ _ _ Hreads _ _ _ _ _];
    try match goal with Hptr : session_reads db !! _ = _ |- _ =>
      rewrite <- Hreads in Hptr end;
    simplify_eq.
  - unfold insert_or_replace_session_read; cbn [session_reads].
    by rewrite lookup_insert_eq.
  - unfold update_read_at; cbn [session_reads addTokensSaved].
    rewrite lookup_alter_eq.
    match goal with Hptr : session_reads db0 !! _ = Some _ |- _ =>
      rewrite Hptr end.
    cbn. congruence.
  - unfold store_current, update_session_read;
      cbn [session_reads addTokensSaved insert_or_ignore_file_version].
    rewrite lookup_alter_eq.
    match goal with Hptr : session_reads db0 !! _ = Some _ |- _ =>
      rewrite Hptr end.
    cbn. congruence.
  - unfold store_current, update_session_read;
      cbn [session_reads insert_or_ignore_file_version].
    rewrite lookup_alter_eq.
    match goal with Hptr : session_reads db0 !! _ = Some _ |- _ =>
      rewrite Hptr end.
    cbn. congruence.
Qed.

(** No other row of [session_reads] is touched. *)
Lemma readFile_other_pointers c fs now filePath db r c' db' k :
  readFile c fs now filePath db = (r, c', db') →
  k ≠ (sessionId c, resolve filePath) →
  session_reads db' !! k = session_reads db !! k.
Proof.
  intros Hcall Hk. read_cases Hcall c db;
    destruct Hpost as [_ _ _ Hreads _ _ _ _ _]; rewrite <- Hreads.
  - done.
  - unfold insert_or_replace_session_read; cbn [session_reads].
    by rewrite lookup_insert_ne.
  - unfold update_read_at; cbn [session_reads addTokensSaved].
    by rewrite lookup_alter_ne.
  - unfold store_current, update_session_read;
      cbn [session_reads addTokensSaved insert_or_ignore_file_version].
    by rewrite lookup_alter_ne.
  - unfold store_current, update_session_read;
      cbn [session_reads insert_or_ignore_file_version].
    by rewrite lookup_alter_ne.
Qed.

(** A stored version is never overwritten or dropped by a read. *)
Lemma readFile_versions_kept c fs now filePath db r c' db' k v :
  readFile c fs now filePath db = (r, c', db') →
  file_versions db !! k = Some v →
  file_versions db' !! k = Some v.
Proof.
  intros Hcall Hk. read_cases Hcall c db;
    destruct Hpost as [_ _ Hvers _ _ _ _ _ _]; rewrite <- Hvers in Hk.
  - done.
  - by apply insert_or_ignore_kept.
  - done.
  - by apply insert_or_ignore_kept.
  - by apply insert_or_ignore_kept.
Qed.

Lemma readFile_pointers_valid c fs now filePath db r c' db' :
  readFile c fs now filePath db = (r, c', db') →
  pointers_valid db → pointers_valid db'.
Proof.
  intros Hcall Hvalid. read_cases Hcall c db;
    destruct Hpost as [_ _ Hvers Hreads _ _ _ _ _];
    apply (pointers_valid_ext db db0 Hvers Hreads) in Hvalid.
  - done.
  - apply pointers_valid_insert_or_replace;
      auto using insert_or_ignore_present, pointers_valid_insert_or_ignore.
  - apply pointers_valid_update_read_at.
    by apply (pointers_valid_ext db0).
  - apply (pointers_valid_ext (store_current c now filePath C db0));
      [done..|].
    apply pointers_valid_update_session_read;
      auto using insert_or_ignore_present, pointers_valid_insert_or_ignore.
  - apply pointers_valid_update_session_read;
      auto using insert_or_ignore_present, pointers_valid_insert_or_ignore.
Qed.

Lemma readFile_stats_row c fs now filePath db r c' db' :
  readFile c fs now filePath db = (r, c', db') →
  store_ok c db →
  is_Some (stats db' !! tokens_saved_key).
Proof.
  intros Hcall Hok. read_cases Hcall c db;
    destruct Hpost as [_ _ _ _ _ _ Hrow _ _]; specialize (Hrow Hok);
    first [exact Hrow | by apply stats_row_addTokensSaved].
Qed.

End ReadTables.

(** ** Steps and sequences *)

Section Steps.
Context `{Collaborators}.

Lemma exec_db c op db :
  (exec c op db).2
  = match op with
    | OpReadFile fs now filePath => (readFile c fs now filePath db).2
    | OpFileChanged _ => db
    | OpFileDeleted filePath =>
        delete_session_reads (resolve filePath)
          (delete_file_versions (resolve filePath) (init c db).2)
    | OpGetStats => (init c db).2
    | OpClear =>
        {| file_versions := ∅; session_reads := ∅;
           stats := (λ _, 0) <$> stats (init c db).2; session_stats := ∅ |}
    end.
Proof.
  destruct op; unfold exec, onFileChanged, onFileDeleted, getStats, clear;
    try destruct (readFile _ _ _ _ _) as [[r c'] db'];
    try destruct (init c db) as [c0 db0]; reflexivity.
Qed.

Lemma exec_pointers_valid c op db :
  pointers_valid db → pointers_valid (exec c op db).2.
Proof.
  intros Hvalid. rewrite exec_db.
  pose proof (init_inv c db _ _ (surjective_pairing (init c db)))
    as [_ _ Hvers Hreads _ _ _ _ _].
  pose proof (pointers_valid_ext db _ Hvers Hreads Hvalid) as Hvalid0.
  destruct op as [fs now filePath| | | |].
  - destruct (readFile c fs now filePath db) as [[r c'] db'] eqn:Hcall.
    by eapply readFile_pointers_valid.
  - done.
  - by apply pointers_valid_purge.
  - done.
  - by apply pointers_valid_empty.
Qed.

Lemma run_pointers_valid calls db :
  pointers_valid db → pointers_valid (run calls db).
Proof.
  revert db. induction calls as [|[c op] rest IH]; intros db Hvalid; [done|].
  cbn [run]. by apply IH, exec_pointers_valid.
Qed.

Lemma exec_counters_monotone c op db sid :
  is_clear (c, op) = false →
  globalTokens db ≤ globalTokens (exec c op db).2
  ∧ sessionTokens sid db ≤ sessionTokens sid (exec c op db).2.
Proof.
  intros Hop. rewrite exec_db.
  pose proof (init_inv c db _ _ (surjective_pairing (init c db)))
    as [_ _ _ _ Hss Hglob _ _ _].
  pose proof (sessionTokens_ext sid db _ Hss) as Hs0.
  destruct op as [fs now filePath| | | |]; try discriminate.
  - destruct (readFile c fs now filePath db) as [[r c'] db'] eqn:Hcall.
    destruct (readFile_savings _ _ _ _ _ _ _ _ Hcall)
      as (amount & Hpos & Hown & Hothers & Hle & _).
    split; [done|]. cbn [snd].
    destruct (decide (sid = sessionId c)) as [->|Hne].
    + lia.
    + rewrite (Hothers sid Hne). lia.
  - lia.
  - change (globalTokens (delete_session_reads _ _))
      with (globalTokens (init c db).2).
    change (sessionTokens sid (delete_session_reads _ _))
      with (sessionTokens sid (init c db).2).
    lia.
  - lia.
Qed.

Lemma run_counters_monotone calls db sid :
  forallb (λ call, negb (is_clear call)) calls = true →
  globalTokens db ≤ globalTokens (run calls db)
  ∧ sessionTokens sid db ≤ sessionTokens sid (run calls db).
Proof.
  revert db. induction calls as [|[c op] rest IH]; intros db Hops.
  - cbn [run]. lia.
  - cbn [forallb] in Hops. apply andb_prop in Hops as [Hop Hrest].
    apply negb_true_iff in Hop.
    destruct (exec_counters_monotone c op db sid Hop) as [Hg Hs].
    destruct (IH (exec c op db).2 Hrest) as [Hg' Hs'].
    cbn [run]. lia.
Qed.

Lemma clear_counters c db sid :
  globalTokens (clear c db).2 = 0 ∧ sessionTokens sid (clear c db).2 = 0.
Proof.
  unfold clear. destruct (init c db) as [c0 db0]. cbn [snd].
  unfold globalTokens, sessionTokens; cbn [stats session_stats].
  rewrite lookup_fmap, lookup_empty.
  by destruct (stats db0 !! tokens_saved_key).
Qed.

(** A call that is not a read of [absPath] by [sid] creates no pointer
    for that pair. *)
Lemma exec_no_pointer sid absPath c op db :
  is_read_of sid absPath (c, op) = false →
  session_reads db !! (sid, absPath) = None →
  session_reads (exec c op db).2 !! (sid, absPath) = None.
Proof.
  intros Hop Hnone. rewrite exec_db.
  pose proof (init_inv c db _ _ (surjective_pairing (init c db)))
    as [_ _ _ Hreads _ _ _ _ _].
  destruct op as [fs now filePath| | | |].
  - destruct (readFile c fs now filePath db) as [[r c'] db'] eqn:Hcall.
    cbn [snd]. rewrite <- Hnone.
    eapply readFile_other_pointers; [exact Hcall|].
    unfold is_read_of in Hop. cbn [fst snd] in Hop.
    apply andb_false_iff in Hop as [Hne|Hne];
      apply String.eqb_neq in Hne; congruence.
  - done.
  - unfold delete_session_reads, delete_file_versions; cbn [session_reads].
    apply map_lookup_filter_None. left. by rewrite Hreads.
  - by rewrite Hreads.
  - apply lookup_empty.
Qed.

Lemma run_no_pointer sid absPath calls db :
  forallb (λ call, negb (is_read_of sid absPath call)) calls = true →
  session_reads db !! (sid, absPath) = None →
  session_reads (run calls db) !! (sid, absPath) = None.
Proof.
  revert db. induction calls as [|[c op] rest IH]; intros db Hops Hnone.
  - done.
  - cbn [forallb] in Hops. apply andb_prop in Hops as [Hop Hrest].
    apply negb_true_iff in Hop. cbn [run].
    by apply IH, exec_no_pointer.
Qed.

(** [getStats] reports the two observations, and changes them in no way. *)
Lemma getStats_reports c db :
  tokensSaved (getStats c db).1.1 = globalTokens db
  ∧ sessionTokensSaved (getStats c db).1.1 = sessionTokens (sessionId c) db
  ∧ filesTracked (getStats c db).1.1 = count_distinct_paths db.
Proof.
  pose proof (init_inv c db _ _ (surjective_pairing (init c db)))
    as [Hsid _ Hvers _ Hss Hglob _ _ _].
  unfold getStats. destruct (init c db) as [c0 db0]. cbn [fst snd] in *.
  split_and!.
  - exact Hglob.
  - unfold sessionTokens. by rewrite Hsid, Hss.
  - unfold count_distinct_paths. by rewrite Hvers.
Qed.

(** No call removes the [tokens_saved] row, and every call that runs
    [init] leaves it in place: [store_ok] holds for every object at every
    moment of a run. *)
Lemma exec_keeps_stats_row c op db :
  is_Some (stats db !! tokens_saved_key) →
  is_Some (stats (exec c op db).2 !! tokens_saved_key).
Proof.
  intros Hrow. rewrite exec_db.
  pose proof (init_inv c db _ _ (surjective_pairing (init c db)))
    as [_ _ _ _ _ _ _ Hkept _]. specialize (Hkept Hrow).
  destruct op as [fs now filePath| | | |]; rewrite ?Hkept; try done.
  - destruct (readFile c fs now filePath db) as [[r c'] db'] eqn:Hcall.
    eapply readFile_stats_row; [exact Hcall|]. by intros _.
  - cbn [stats]. rewrite lookup_fmap. destruct Hrow as [v ->]. by eexists.
Qed.

Lemma exec_store_ok c op db :
  store_ok c db → store_ok (exec c op db).1 (exec c op db).2.
Proof.
  intros Hok.
  pose proof (init_inv c db _ _ (surjective_pairing (init c db)))
    as [_ Hflag _ _ _ _ Hrow _ _]. specialize (Hrow Hok).
  destruct op as [fs now filePath| | | |].
  - intros _. rewrite exec_db.
    destruct (readFile c fs now filePath db) as [[r c'] db'] eqn:Hcall.
    by eapply readFile_stats_row.
  - exact Hok.
  - intros _. by rewrite exec_db.
  - intros _. by rewrite exec_db.
  - intros _. rewrite exec_db. cbn [stats]. rewrite lookup_fmap.
    destruct Hrow as [v ->]. by eexists.
Qed.

End Steps.

(** ** Counting lines *)

Lemma split_nonempty sep s : split sep s ≠ [].
Proof.
  destruct s as [|ch rest]; cbn [split]; [done|].
  destruct (Ascii.eqb ch sep); [done|]. by destruct (split sep rest).
Qed.

Lemma is_line_cons ch s :
  is_line (String ch s) ↔ ch ≠ newline ∧ is_line s.
Proof.
  unfold is_line. cbn [list_ascii_of_string]. rewrite not_elem_of_cons.
  split; intros [Hne Hrest]; split; auto.
Qed.

Lemma split_line l : is_line l → split newline l = [l].
Proof.
  induction l as [|ch l IH]; [done|].
  intros [Hch Hl]%is_line_cons. cbn [split].
  apply Ascii.eqb_neq in Hch. rewrite Hch, (IH Hl). reflexivity.
Qed.

Lemma split_line_newline l rest :
  is_line l →
  split newline (l +:+ String newline rest) = l :: split newline rest.
Proof.
  induction l as [|ch l IH].
  - intros _. change (EmptyString +:+ String newline rest) with (String newline rest).
    cbn [split]. by rewrite Ascii.eqb_refl.
  - intros [Hch Hl]%is_line_cons.
    change (String ch l +:+ String newline rest)
      with (String ch (l +:+ String newline rest)).
    cbn [split].
    apply Ascii.eqb_neq in Hch. rewrite Hch, (IH Hl). reflexivity.
Qed.

Lemma split_join_lines lines :
  lines ≠ [] → Forall is_line lines →
  split newline (join_lines lines) = lines.
Proof.
  induction lines as [|l rest IH]; [done|].
  intros _ Hall. apply Forall_cons in Hall as [Hl Hrest].
  destruct rest as [|l' rest'].
  - cbn [join_lines]. by apply split_line.
  - change (join_lines (l :: l' :: rest'))
      with (l +:+ String newline (join_lines (l' :: rest'))).
    rewrite split_line_newline by done. f_equal. by apply IH.
Qed.

Lemma lineCount_join_lines lines :
  lines ≠ [] → Forall is_line lines →
  lineCount (join_lines lines) = Z.of_nat (length lines).
Proof. intros Hne Hall. unfold lineCount. by rewrite split_join_lines. Qed.

Lemma append_assoc (s1 s2 s3 : string) :
  (s1 +:+ s2) +:+ s3 = s1 +:+ (s2 +:+ s3).
Proof.
  induction s1 as [|ch s1 IH]; [done|].
  change (String ch ((s1 +:+ s2) +:+ s3) = String ch (s1 +:+ (s2 +:+ s3))).
  by rewrite IH.
Qed.

(** A final newline opens one more, empty, segment. *)
Lemma lineCount_trailing_newline lines :
  lines ≠ [] → Forall is_line lines →
  lineCount (join_lines lines +:+ String newline EmptyString)
  = Z.of_nat (length lines) + 1.
Proof.
  intros Hne Hall.
  assert (join_lines lines +:+ String newline EmptyString = join_lines (lines ++ [EmptyString]))
    as ->.
  { clear Hall. induction lines as [|l rest IH]; [done|].
    destruct rest as [|l' rest']; [done|].
    change (join_lines (l :: l' :: rest'))
      with (l +:+ String newline (join_lines (l' :: rest'))).
    change (join_lines ((l :: l' :: rest') ++ [EmptyString]))
      with (l +:+ String newline (join_lines ((l' :: rest') ++ [EmptyString]))).
    rewrite <- IH by done.
    by rewrite append_assoc. }
  rewrite lineCount_join_lines.
  - rewrite length_app. cbn [length]. lia.
  - by destruct lines.
  - apply Forall_app. split; [done|]. apply Forall_singleton.
    unfold is_line. cbn. apply not_elem_of_nil.
Qed.

(** The segments of [split] are one more than the newline characters. *)
Lemma split_length text :
  length (split newline text) = S (count_newlines text).
Proof.
  induction text as [|ch rest IH]; [done|]. cbn [split count_newlines].
  destruct (Ascii.eqb ch newline).
  - cbn [length]. by rewrite IH.
  - by destruct (split newline rest).
Qed.

Lemma lineCount_count_newlines text :
  lineCount text = Z.of_nat (count_newlines text) + 1.
Proof. unfold lineCount. rewrite split_length. lia. Qed.

Lemma count_newlines_app s1 s2 :
  count_newlines (s1 +:+ s2) = (count_newlines s1 + count_newlines s2)%nat.
Proof.
  induction s1 as [|ch s1 IH]; [done|].
  change (String ch s1 +:+ s2) with (String ch (s1 +:+ s2)).
  cbn [count_newlines]. destruct (Ascii.eqb ch newline); by rewrite IH.
Qed.

Lemma count_newlines_line l : is_line l → count_newlines l = 0%nat.
Proof.
  induction l as [|ch l IH]; [done|].
  intros [Hch Hl]%is_line_cons. cbn [count_newlines].
  apply Ascii.eqb_neq in Hch. rewrite Hch. by apply IH.
Qed.


(** * The read algorithm *)

Section Claims.
Context `{Collaborators}.

(** C1: when a session has read a path and reads it again while the file
    still holds the same content C, the second [readFile] answers
    [cached = true], [linesChanged = 0], the unchanged summary as content
    and the content hash as hash, and both the session's counter and the
    global counter grow by [estimateTokens C], the least integer that is at
    least three quarters of the number of characters of C. *)
Theorem reread_unchanged c c2 fs now1 now2 filePath C db r1 c1 db1 :
  store_ok c db →
  fs !! resolve filePath = Some C →
  readFile c fs now1 filePath db = (r1, c1, db1) →
  sessionId c2 = sessionId c →
  ∃ c3 db2,
    readFile c2 fs now2 filePath db1
    = (inr {| cached := true;
              content := unchangedSummary (lineCount C) (estimateTokens C);
              diff := None;
              linesChanged := Some 0;
              totalLines := Some (lineCount C);
              hash := contentHash C |}, c3, db2)
    ∧ sessionTokens (sessionId c) db2
      = sessionTokens (sessionId c) db1 + estimateTokens C
    ∧ globalTokens db2 = globalTokens db1 + estimateTokens C
    ∧ 3 * Z.of_nat (String.length C) ≤ 4 * estimateTokens C
      < 3 * Z.of_nat (String.length C) + 4.
Proof.
  intros Hok Hfs Hfirst Hsid.
  pose proof (readFile_pointer _ _ _ _ _ C _ _ _ Hfirst Hfs) as Hptr.
  pose proof (readFile_stats_row _ _ _ _ _ _ _ _ Hfirst Hok) as Hrow.
  destruct (session_reads db1 !! (sessionId c, resolve filePath))
    as [last|] eqn:Hlast; [|discriminate]. injection Hptr as Hsame.
  rewrite <- Hsid in Hlast.
  pose proof (init_inv c2 db1 _ _ (surjective_pairing (init c2 db1)))
    as [_ _ _ _ _ _ _ Hkept _]. specialize (Hkept Hrow).
  eexists _, _. split; [|split_and!].
  - rewrite (readFile_unchanged _ _ _ _ _ C last) by assumption. reflexivity.
  - rewrite Hkept, <- Hsid. exact (sessionTokens_addTokensSaved c2 _ db1).
  - rewrite Hkept. exact (globalTokens_addTokensSaved c2 _ db1 Hrow).
  - apply estimateTokens_ceil.
  - apply estimateTokens_ceil.
Qed.

(** C2: when the session's last-seen hash differs from the hash of the
    current content, the old version is stored and [computeDiff] reports
    changes, [readFile] answers [cached = true] with the diff text as both
    content and diff, [linesChanged] of the diff result and [totalLines] of
    the current content, and adds
    [max 0 (estimate current - estimate diff)] to both counters. *)
Theorem changed_read_returns_diff c fs now filePath db C last old :
  store_ok c db →
  fs !! resolve filePath = Some C →
  session_reads db !! (sessionId c, resolve filePath) = Some last →
  sr_hash last ≠ contentHash C →
  file_versions db !! (resolve filePath, sr_hash last) = Some old →
  dr_hasChanges (computeDiff (fv_content old) C filePath) = true →
  let d := computeDiff (fv_content old) C filePath in
  let saved := Z.max 0 (estimateTokens C - estimateTokens (dr_diff d)) in
  ∃ c' db',
    readFile c fs now filePath db
    = (inr {| cached := true;
              content := dr_diff d;
              diff := Some (dr_diff d);
              linesChanged := Some (dr_linesChanged d);
              totalLines := Some (lineCount C);
              hash := contentHash C |}, c', db')
    ∧ globalTokens db' = globalTokens db + saved
    ∧ sessionTokens (sessionId c) db' = sessionTokens (sessionId c) db + saved.
Proof.
  intros Hok Hfs Hptr Hdiff Hold Hchg d saved.
  pose proof (init_inv c db _ _ (surjective_pairing (init c db)))
    as [_ _ _ _ Hss Hglob Hrow _ _]. specialize (Hrow Hok).
  eexists _, _. split; [|split].
  - rewrite (readFile_diff _ _ _ _ _ C last old) by assumption. reflexivity.
  - rewrite <- Hglob.
    exact (globalTokens_addTokensSaved c saved
             (store_current c now filePath C (init c db).2) Hrow).
  - rewrite <- (sessionTokens_ext _ db (init c db).2 Hss).
    exact (sessionTokens_addTokensSaved c saved
             (store_current c now filePath C (init c db).2)).
Qed.

(** C3: when the last-seen hash differs from the current hash but the old
    version is not stored, or [computeDiff] reports no changes, [readFile]
    answers like a cold start ([cached = false], the full current content,
    the current hash and [totalLines]) and neither counter changes. *)
Theorem changed_read_falls_back c fs now filePath db C last :
  fs !! resolve filePath = Some C →
  session_reads db !! (sessionId c, resolve filePath) = Some last →
  sr_hash last ≠ contentHash C →
  (file_versions db !! (resolve filePath, sr_hash last) = None
   ∨ ∃ old, file_versions db !! (resolve filePath, sr_hash last) = Some old
            ∧ dr_hasChanges (computeDiff (fv_content old) C filePath)
              = false) →
  ∃ c' db',
    readFile c fs now filePath db
    = (inr {| cached := false;
              content := C;
              diff := None;
              linesChanged := None;
              totalLines := Some (lineCount C);
              hash := contentHash C |}, c', db')
    ∧ globalTokens db' = globalTokens db
    ∧ session_stats db' = session_stats db
    ∧ ∀ sid, sessionTokens sid db' = sessionTokens sid db.
Proof.
  intros Hfs Hptr Hdiff Hold.
  pose proof (init_inv c db _ _ (surjective_pairing (init c db)))
    as [_ _ _ _ Hss Hglob _ _ _].
  eexists _, _. split; [|split_and!].
  - rewrite (readFile_fallback _ _ _ _ _ C last) by assumption. reflexivity.
  - exact Hglob.
  - exact Hss.
  - intros sid. exact (sessionTokens_ext sid db (init c db).2 Hss).
Qed.

End Claims.

(** ** Rows of a table by key *)

Lemma filter_none {A} (P : A → Prop) `{∀ x, Decision (P x)} (l : list A) :
  Forall (λ x, ¬ P x) l → filter P l = [].
Proof.
  induction 1 as [|x l Hx _ IH]; [done|]. by rewrite filter_cons_False.
Qed.

Lemma version_rows_lookup path hash db v :
  file_versions db !! (path, hash) = Some v →
  version_rows path hash db = [((path, hash), v)].
Proof.
  intros Hrow. unfold version_rows.
  apply Permutation_singleton_r.
  rewrite <- (map_to_list_delete _ _ _ Hrow).
  rewrite filter_cons_True by done.
  rewrite filter_none; [done|].
  apply Forall_forall. intros [k w] Hin%elem_of_map_to_list Hk.
  cbn [fst] in Hk. subst k. by rewrite lookup_delete_eq in Hin.
Qed.

Section MoreClaims.
Context `{Collaborators}.

(** C4: the first [readFile] of a path by a session answers
    [cached = false] with the full content of the file, whatever calls were
    made before it, including reads of the same path by other sessions, as
    long as none of them was a read of that path by that session. *)
Theorem first_read_is_cold c fs now filePath C calls db :
  session_reads db !! (sessionId c, resolve filePath) = None →
  forallb (λ call,
             negb (is_read_of (sessionId c) (resolve filePath) call))
          calls = true →
  fs !! resolve filePath = Some C →
  (readFile c fs now filePath (run calls db)).1.1
  = inr {| cached := false;
           content := C;
           diff := None;
           linesChanged := None;
           totalLines := Some (lineCount C);
           hash := contentHash C |}.
Proof.
  intros Hnone Hcalls Hfs.
  pose proof (run_no_pointer _ _ calls db Hcalls Hnone) as Hptr.
  by rewrite (readFile_cold _ _ _ _ _ C).
Qed.

(** C5, amended: for a file whose content is three lines separated by
    newlines, with no newline after the last line, a session's first
    [readFile] answers [cached = false], the content of the file and
    [totalLines = 3]; in every answer [totalLines] is the number of newline
    characters of the current content plus one, so for a file of three
    lines that each end in a newline the first read answers
    [totalLines = 4]. *)
Theorem first_read_total_lines c fs now filePath db C :
  fs !! resolve filePath = Some C →
  session_reads db !! (sessionId c, resolve filePath) = None →
  (readFile c fs now filePath db).1.1
  = inr {| cached := false;
           content := C;
           diff := None;
           linesChanged := None;
           totalLines := Some (Z.of_nat (count_newlines C) + 1);
           hash := contentHash C |}
  ∧ (∀ l1 l2 l3,
       is_line l1 → is_line l2 → is_line l3 →
       C = l1 +:+ nl +:+ l2 +:+ nl +:+ l3 →
       (readFile c fs now filePath db).1.1
       = inr {| cached := false;
                content := C;
                diff := None;
                linesChanged := None;
                totalLines := Some 3;
                hash := contentHash C |})
  ∧ (∀ l1 l2 l3,
       is_line l1 → is_line l2 → is_line l3 →
       C = l1 +:+ nl +:+ l2 +:+ nl +:+ l3 +:+ nl →
       (readFile c fs now filePath db).1.1
       = inr {| cached := false;
                content := C;
                diff := None;
                linesChanged := None;
                totalLines := Some 4;
                hash := contentHash C |})
  ∧ (∀ c2 now2 db2 r c' db',
       readFile c2 fs now2 filePath db2 = (inr r, c', db') →
       totalLines r = Some (Z.of_nat (count_newlines C) + 1)).
Proof.
  intros Hfs Hnone.
  assert (count_newlines nl = 1%nat) as Hnl by done.
  rewrite (readFile_cold _ _ _ _ _ _ Hfs Hnone). cbn [fst]. unfold coldAnswer.
  rewrite lineCount_count_newlines.
  split_and!; [done| | |].
  - intros l1 l2 l3 Hl1 Hl2 Hl3 ->. do 3 f_equal.
    rewrite !count_newlines_app, Hnl, !count_newlines_line by done. lia.
  - intros l1 l2 l3 Hl1 Hl2 Hl3 ->. do 3 f_equal.
    rewrite !count_newlines_app, Hnl, !count_newlines_line by done. lia.
  - intros c2 now2 db2 r c' db' Hcall.
    rewrite <- lineCount_count_newlines.
    read_cases Hcall c2 db2; by simplify_eq.
Qed.

(** C6, amended: for a path that does not exist at read time [readFile]
    fails with the not-found error and no answer; [file_versions],
    [session_reads] and [session_stats] are as before and so is the global
    counter; the whole database is as before when the store had been
    initialised, and otherwise differs only by what [init] does, the
    creation of the [tokens_saved] row with value 0. *)
Theorem missing_file_leaves_cache c fs now filePath db :
  fs !! resolve filePath = None →
  ∃ c' db',
    readFile c fs now filePath db = (inl (ENOENT (resolve filePath)), c', db')
    ∧ file_versions db' = file_versions db
    ∧ session_reads db' = session_reads db
    ∧ session_stats db' = session_stats db
    ∧ globalTokens db' = globalTokens db
    ∧ (initialized c = true ∨ is_Some (stats db !! tokens_saved_key) →
       db' = db)
    ∧ (db' = db ∨ (stats db !! tokens_saved_key = None
                   ∧ stats db' = <[tokens_saved_key := 0]> (stats db))).
Proof.
  intros Hfs. exists (init c db).1, (init c db).2.
  pose proof (init_inv c db _ _ (surjective_pairing (init c db)))
    as [_ _ Hvers Hreads Hss Hglob _ Hkept Hagain].
  split_and!; try done.
  - by apply readFile_missing.
  - intros [Hflag|Hrow]; [by apply Hagain | by apply Hkept].
  - unfold init. destruct (initialized c); [by left|]. cbn [snd].
    destruct (stats db !! tokens_saved_key) as [v|] eqn:Hrow.
    + left. apply exec_schema_id. by rewrite Hrow.
    + right. split; [done|]. unfold exec_schema. cbn [stats]. by rewrite Hrow.
Qed.

End MoreClaims.

(** * Counters, pointers and versions *)

Section StoreClaims.
Context `{Collaborators}.

(** C7: on a new database [getStats] reports zero for the global counter
    and for every session; no sequence of [readFile], [onFileChanged],
    [onFileDeleted] and [getStats] calls lowers the global counter or any
    session's counter; each [readFile] adds one non-negative amount to the
    caller's counter and to the global one and leaves the other sessions
    alone; [clear] sets all of them to zero. *)
Theorem savings_counters_monotone :
  (∀ c, tokensSaved (getStats c empty_db).1.1 = 0
        ∧ sessionTokensSaved (getStats c empty_db).1.1 = 0)
  ∧ (∀ calls db sid,
       forallb (λ call, negb (is_clear call)) calls = true →
       globalTokens db ≤ globalTokens (run calls db)
       ∧ sessionTokens sid db ≤ sessionTokens sid (run calls db))
  ∧ (∀ c fs now filePath db r c' db',
       readFile c fs now filePath db = (r, c', db') →
       ∃ amount,
         0 ≤ amount
         ∧ sessionTokens (sessionId c) db'
           = sessionTokens (sessionId c) db + amount
         ∧ (∀ sid, sid ≠ sessionId c →
                   sessionTokens sid db' = sessionTokens sid db)
         ∧ globalTokens db ≤ globalTokens db'
         ∧ (store_ok c db → globalTokens db' = globalTokens db + amount))
  ∧ (∀ c db sid,
       globalTokens (clear c db).2 = 0 ∧ sessionTokens sid (clear c db).2 = 0).
Proof.
  split_and!.
  - intros c. unfold getStats, init.
    destruct (initialized c); cbn; by rewrite ?lookup_empty.
  - apply run_counters_monotone.
  - apply readFile_savings.
  - apply clear_counters.
Qed.

(** C8: in every state reached from the empty database by [readFile],
    [onFileChanged], [onFileDeleted], [getStats] and [clear] calls, each
    row [(sessionId, path, hash)] of [session_reads] has a row
    [(path, hash)] in [file_versions]; every single call keeps that
    property. *)
Theorem session_pointers_refer_to_versions :
  (∀ calls sid path r,
     session_reads (run calls empty_db) !! (sid, path) = Some r →
     is_Some (file_versions (run calls empty_db) !! (path, sr_hash r)))
  ∧ (∀ c op db, pointers_valid db → pointers_valid (exec c op db).2).
Proof.
  split.
  - intros calls. apply pointers_valid_lookup, run_pointers_valid.
    by apply pointers_valid_empty.
  - apply exec_pointers_valid.
Qed.

(** C9: inserting a version under a key [(path, hash)] that is already
    stored changes nothing: after two inserts under the same key the table
    holds exactly one row for it, with the content that was stored first,
    also when the second insert brings other content; and no [readFile]
    changes a stored version. *)
Theorem insert_version_idempotent
    path hash content1 lines1 t1 content2 lines2 t2 db :
  let db1 := insert_or_ignore_file_version path hash content1 lines1 t1 db in
  let db2 := insert_or_ignore_file_version path hash content2 lines2 t2 db1 in
  db2 = db1
  ∧ (∃ v, version_rows path hash db2 = [((path, hash), v)]
          ∧ (file_versions db !! (path, hash) = None →
             v = {| fv_content := content1; fv_lines := lines1;
                    fv_created_at := t1 |})
          ∧ (∀ w, file_versions db !! (path, hash) = Some w →
                  v = w ∧ db1 = db))
  ∧ (∀ c fs now filePath r c' db' k v,
       file_versions db !! k = Some v →
       readFile c fs now filePath db = (r, c', db') →
       file_versions db' !! k = Some v).
Proof.
  intros db1 db2.
  assert (db2 = db1) as Hsame
    by apply insert_or_ignore_existing, insert_or_ignore_present.
  split_and!; [done| |].
  - rewrite Hsame.
    destruct (insert_or_ignore_present path hash content1 lines1 t1 db)
      as [v Hv]. fold db1 in Hv.
    exists v. split_and!.
    + by apply version_rows_lookup.
    + intros Hnone. subst db1.
      rewrite insert_or_ignore_fresh in Hv by done. congruence.
    + intros w Hw. subst db1.
      rewrite (insert_or_ignore_existing path hash) in * by (by eexists).
      split; congruence.
  - intros c fs now filePath r c' db' k v Hk Hcall.
    by eapply readFile_versions_kept.
Qed.

(** C10: when a changed read falls back because the old version is not
    stored, it answers [cached = false] with the full content and still
    moves the session pointer to the current hash, so the next [readFile]
    of the same unmodified path by the same session answers [cached = true]
    with [linesChanged = 0]. *)
Theorem fallback_then_unchanged c c2 fs now1 now2 filePath db C last :
  fs !! resolve filePath = Some C →
  session_reads db !! (sessionId c, resolve filePath) = Some last →
  sr_hash last ≠ contentHash C →
  file_versions db !! (resolve filePath, sr_hash last) = None →
  sessionId c2 = sessionId c →
  ∃ c1 db1 c3 db2,
    readFile c fs now1 filePath db
    = (inr {| cached := false;
              content := C;
              diff := None;
              linesChanged := None;
              totalLines := Some (lineCount C);
              hash := contentHash C |}, c1, db1)
    ∧ sr_hash <$> session_reads db1 !! (sessionId c, resolve filePath)
      = Some (contentHash C)
    ∧ readFile c2 fs now2 filePath db1
      = (inr {| cached := true;
                content := unchangedSummary (lineCount C) (estimateTokens C);
                diff := None;
                linesChanged := Some 0;
                totalLines := Some (lineCount C);
                hash := contentHash C |}, c3, db2).
Proof.
  intros Hfs Hptr Hdiff Hold Hsid.
  pose proof (readFile_fallback c fs now1 filePath db C last Hfs Hptr Hdiff
                (or_introl Hold)) as Hfirst.
  pose proof (readFile_pointer _ _ _ _ _ C _ _ _ Hfirst Hfs) as Hnew.
  destruct (session_reads _ !! (sessionId c, resolve filePath))
    as [last'|] eqn:Hlast in Hnew; [|discriminate].
  injection Hnew as Hsame.
  eexists _, _, _, _. split_and!.
  - exact Hfirst.
  - by rewrite Hlast, <- Hsame.
  - rewrite <- Hsid in Hlast.
    rewrite (readFile_unchanged _ _ _ _ _ C last') by assumption. reflexivity.
Qed.

End StoreClaims.

(** * The properties on the fixtures *)

Section Fixtures.
#[local] Existing Instance demoCollaborators.

Example first_read_on_fixture :
  (readFile session_1 fs_1 1 FILE_PATH empty_db).1.1
  = inr {| cached := false; content := CONTENT_1; diff := None;
           linesChanged := None; totalLines := Some 3; hash := "13047" |}.
Proof. vm_compute. reflexivity. Qed.

Example second_read_on_fixture :
  (readFile session_1 fs_1 2 FILE_PATH db_read_once).1.1
  = inr {| cached := true;
           content := "[cachebro: unchanged, 3 lines, 24 tokens saved]";
           diff := None; linesChanged := Some 0; totalLines := Some 3;
           hash := "13047" |}.
Proof. vm_compute. reflexivity. Qed.

Example trailing_newline_on_fixture :
  lineCount (CONTENT_1 +:+ String newline EmptyString) = 4.
Proof. vm_compute. reflexivity. Qed.

Lemma reread_unchanged_witness :
  ∃ c3 db2,
    readFile session_1 fs_1 2 FILE_PATH db_read_once
    = (inr {| cached := true;
              content := unchangedSummary (lineCount CONTENT_1)
                                          (estimateTokens CONTENT_1);
              diff := None;
              linesChanged := Some 0;
              totalLines := Some (lineCount CONTENT_1);
              hash := contentHash CONTENT_1 |}, c3, db2)
    ∧ sessionTokens (sessionId session_1) db2
      = sessionTokens (sessionId session_1) db_read_once
        + estimateTokens CONTENT_1
    ∧ globalTokens db2 = globalTokens db_read_once + estimateTokens CONTENT_1
    ∧ 3 * Z.of_nat (String.length CONTENT_1) ≤ 4 * estimateTokens CONTENT_1
      < 3 * Z.of_nat (String.length CONTENT_1) + 4.
Proof.
  apply (reread_unchanged session_1 session_1 fs_1 1 2 FILE_PATH CONTENT_1
           empty_db
           (readFile session_1 fs_1 1 FILE_PATH empty_db).1.1
           (readFile session_1 fs_1 1 FILE_PATH empty_db).1.2
           db_read_once).
  - intros Hflag. vm_compute in Hflag. discriminate Hflag.
  - vm_compute. reflexivity.
  - vm_compute. reflexivity.
  - reflexivity.
Defined.

Lemma changed_read_returns_diff_witness :
  let d := computeDiff CONTENT_1 CONTENT_2 FILE_PATH in
  let saved :=
    Z.max 0 (estimateTokens CONTENT_2 - estimateTokens (dr_diff d)) in
  ∃ c' db',
    readFile session_1 fs_2 2 FILE_PATH db_read_once
    = (inr {| cached := true;
              content := dr_diff d;
              diff := Some (dr_diff d);
              linesChanged := Some (dr_linesChanged d);
              totalLines := Some (lineCount CONTENT_2);
              hash := contentHash CONTENT_2 |}, c', db')
    ∧ globalTokens db' = globalTokens db_read_once + saved
    ∧ sessionTokens (sessionId session_1) db'
      = sessionTokens (sessionId session_1) db_read_once + saved.
Proof.
  apply (changed_read_returns_diff session_1 fs_2 2 FILE_PATH db_read_once
           CONTENT_2 last_1 version_1).
  - intros Hflag. vm_compute in Hflag. discriminate Hflag.
  - vm_compute. reflexivity.
  - vm_compute. reflexivity.
  - vm_compute. discriminate.
  - vm_compute. reflexivity.
  - vm_compute. reflexivity.
Defined.

Lemma changed_read_falls_back_witness :
  ∃ c' db',
    readFile session_1 fs_1 2 FILE_PATH db_dangling
    = (inr {| cached := false;
              content := CONTENT_1;
              diff := None;
              linesChanged := None;
              totalLines := Some (lineCount CONTENT_1);
              hash := contentHash CONTENT_1 |}, c', db')
    ∧ globalTokens db' = globalTokens db_dangling
    ∧ session_stats db' = session_stats db_dangling
    ∧ ∀ sid, sessionTokens sid db' = sessionTokens sid db_dangling.
Proof.
  apply (changed_read_falls_back session_1 fs_1 2 FILE_PATH db_dangling
           CONTENT_1 last_dangling).
  - vm_compute. reflexivity.
  - vm_compute. reflexivity.
  - vm_compute. discriminate.
  - left. vm_compute. reflexivity.
Defined.

(** Session 1 reads the file, sees it change, and only then session 2
    reads it for the first time. *)
Lemma first_read_is_cold_witness :
  (readFile session_2 fs_2 4 FILE_PATH
     (run calls_session_1 empty_db)).1.1
  = inr {| cached := false;
           content := CONTENT_2;
           diff := None;
           linesChanged := None;
           totalLines := Some (lineCount CONTENT_2);
           hash := contentHash CONTENT_2 |}.
Proof.
  apply (first_read_is_cold session_2 fs_2 4 FILE_PATH CONTENT_2
           calls_session_1 empty_db).
  - vm_compute. reflexivity.
  - vm_compute. reflexivity.
  - vm_compute. reflexivity.
Defined.

Lemma first_read_total_lines_witness :
  (readFile session_1 fs_1 1 FILE_PATH empty_db).1.1
  = inr {| cached := false;
           content := CONTENT_1;
           diff := None;
           linesChanged := None;
           totalLines := Some 3;
           hash := contentHash CONTENT_1 |}.
Proof.
  refine (proj1 (proj2 (first_read_total_lines session_1 fs_1 1 FILE_PATH
                          empty_db CONTENT_1 _ _))
            "function hello() {" "  return 1;" "}" _ _ _ _).
  - vm_compute. reflexivity.
  - vm_compute. reflexivity.
  - compute_done.
  - compute_done.
  - compute_done.
  - vm_compute. reflexivity.
Defined.

(** C5 as stated fails on a file of three lines that each end in a
    newline: the text after the last newline counts as a fourth line. *)
Lemma three_terminated_lines_report_four :
  is_line "function hello() {" ∧ is_line "  return 1;" ∧ is_line "}"
  ∧ CONTENT_1_TERMINATED
    = "function hello() {" +:+ nl +:+ "  return 1;" +:+ nl +:+ "}" +:+ nl
  ∧ fs_1_terminated !! resolve FILE_PATH = Some CONTENT_1_TERMINATED
  ∧ (readFile session_1 fs_1_terminated 1 FILE_PATH empty_db).1.1
    = inr {| cached := false;
             content := CONTENT_1_TERMINATED;
             diff := None;
             linesChanged := None;
             totalLines := Some 4;
             hash := contentHash CONTENT_1_TERMINATED |}
  ∧ (readFile session_1 fs_1_terminated 1 FILE_PATH empty_db).1.1
    ≠ inr {| cached := false;
             content := CONTENT_1_TERMINATED;
             diff := None;
             linesChanged := None;
             totalLines := Some 3;
             hash := contentHash CONTENT_1_TERMINATED |}.
Proof.
  split_and!; try compute_done; try (vm_compute; reflexivity).
  vm_compute. discriminate.
Qed.

Lemma missing_file_leaves_cache_witness :
  ∃ c' db',
    readFile session_1 ∅ 5 FILE_PATH db_read_once
    = (inl (ENOENT (resolve FILE_PATH)), c', db')
    ∧ file_versions db' = file_versions db_read_once
    ∧ session_reads db' = session_reads db_read_once
    ∧ session_stats db' = session_stats db_read_once
    ∧ globalTokens db' = globalTokens db_read_once
    ∧ (initialized session_1 = true
       ∨ is_Some (stats db_read_once !! tokens_saved_key) →
       db' = db_read_once)
    ∧ (db' = db_read_once
       ∨ (stats db_read_once !! tokens_saved_key = None
          ∧ stats db' = <[tokens_saved_key := 0]> (stats db_read_once))).
Proof.
  apply (missing_file_leaves_cache session_1 ∅ 5 FILE_PATH db_read_once).
  vm_compute. reflexivity.
Defined.

(** C6 as stated fails on a store that was never initialised: the failing
    call still runs [init], which creates the [tokens_saved] row, so the
    [stats] table after the call is not the one before it. *)
Lemma missing_file_first_call_creates_stats_row :
  (∅ : FileSystem) !! resolve FILE_PATH = None
  ∧ (readFile session_1 ∅ 1 FILE_PATH empty_db).1.1 = inl (ENOENT FILE_PATH)
  ∧ stats empty_db !! tokens_saved_key = None
  ∧ stats (readFile session_1 ∅ 1 FILE_PATH empty_db).2 !! tokens_saved_key
    = Some 0
  ∧ stats (readFile session_1 ∅ 1 FILE_PATH empty_db).2 ≠ stats empty_db.
Proof.
  split_and!; try (vm_compute; reflexivity).
  intros Heq.
  assert (stats (readFile session_1 ∅ 1 FILE_PATH empty_db).2
            !! tokens_saved_key = stats empty_db !! tokens_saved_key) as Hrow
    by (by rewrite Heq).
  vm_compute in Hrow. discriminate Hrow.
Qed.

Lemma savings_counters_monotone_witness :
  globalTokens empty_db ≤ globalTokens (run calls_session_1 empty_db)
  ∧ sessionTokens "test-session-1" empty_db
    ≤ sessionTokens "test-session-1" (run calls_session_1 empty_db).
Proof.
  apply (proj1 (proj2 savings_counters_monotone)
           calls_session_1 empty_db "test-session-1").
  vm_compute. reflexivity.
Defined.

Lemma session_pointers_refer_to_versions_witness :
  pointers_valid (exec session_2 (OpReadFile fs_2 4 FILE_PATH)
                    (run calls_session_1 empty_db)).2.
Proof.
  apply (proj2 session_pointers_refer_to_versions
           session_2 (OpReadFile fs_2 4 FILE_PATH)
           (run calls_session_1 empty_db)).
  compute_done.
Defined.

(** A later read of changed content leaves the first version as stored. *)
Lemma insert_version_idempotent_witness :
  file_versions (readFile session_1 fs_2 3 FILE_PATH db_read_once).2
    !! (FILE_PATH, contentHash CONTENT_1)
  = Some version_1.
Proof.
  apply (proj2 (proj2 (insert_version_idempotent
                         FILE_PATH (contentHash CONTENT_1) CONTENT_2 4 9
                         CONTENT_2 4 10 db_read_once))
           session_1 fs_2 3 FILE_PATH
           (readFile session_1 fs_2 3 FILE_PATH db_read_once).1.1
           (readFile session_1 fs_2 3 FILE_PATH db_read_once).1.2
           (readFile session_1 fs_2 3 FILE_PATH db_read_once).2).
  - vm_compute. reflexivity.
  - vm_compute. reflexivity.
Defined.

Lemma fallback_then_unchanged_witness :
  ∃ c1 db1 c3 db2,
    readFile session_1 fs_1 2 FILE_PATH db_dangling
    = (inr {| cached := false;
              content := CONTENT_1;
              diff := None;
              linesChanged := None;
              totalLines := Some (lineCount CONTENT_1);
              hash := contentHash CONTENT_1 |}, c1, db1)
    ∧ sr_hash <$> session_reads db1 !! (sessionId session_1, resolve FILE_PATH)
      = Some (contentHash CONTENT_1)
    ∧ readFile session_1 fs_1 3 FILE_PATH db1
      = (inr {| cached := true;
                content := unchangedSummary (lineCount CONTENT_1)
                                            (estimateTokens CONTENT_1);
                diff := None;
                linesChanged := Some 0;
                totalLines := Some (lineCount CONTENT_1);
                hash := contentHash CONTENT_1 |}, c3, db2).
Proof.
  apply (fallback_then_unchanged session_1 session_1 fs_1 2 3 FILE_PATH
           db_dangling CONTENT_1 last_dangling).
  - vm_compute. reflexivity.
  - vm_compute. reflexivity.
  - vm_compute. discriminate.
  - vm_compute. reflexivity.
  - reflexivity.
Defined.

End Fixtures.

(** * Further properties of the store *)

(** ** Text measures *)

(** X1: the line count of a text is one more than its number of newline
    characters, so it is at least 1 and the empty file has one line. *)
Theorem lineCount_newlines text :
  lineCount text = Z.of_nat (count_newlines text) + 1
  ∧ 1 ≤ lineCount text
  ∧ lineCount EmptyString = 1.
Proof.
  assert (∀ s, length (split newline s) = S (count_newlines s)) as Hlen.
  { induction s as [|ch s IH]; [done|]. cbn [split count_newlines].
    destruct (Ascii.eqb ch newline).
    - cbn [length]. by rewrite IH.
    - destruct (split newline s) as [|seg segs] eqn:Hs; [done|].
      exact IH. }
  unfold lineCount. rewrite !Hlen. cbn [count_newlines]. lia.
Qed.

(** X2: the token estimate is zero exactly for the empty text, never
    exceeds the number of characters, and does not drop when the text
    gets longer. *)
Theorem estimateTokens_bounds text :
  (estimateTokens text = 0 ↔ text = EmptyString)
  ∧ estimateTokens text ≤ Z.of_nat (String.length text)
  ∧ (∀ more, estimateTokens text ≤ estimateTokens (text +:+ more)).
Proof.
  pose proof (estimateTokens_ceil text) as Hc. cbn zeta in Hc.
  split_and!.
  - split.
    + intros Hzero. destruct text as [|ch rest]; [done|].
      cbn [String.length] in Hc. lia.
    + by intros ->.
  - lia.
  - intros more.
    pose proof (estimateTokens_ceil (text +:+ more)) as Hm. cbn zeta in Hm.
    assert (String.length (text +:+ more)
            = (String.length text + String.length more)%nat) as Hlen.
    { clear. induction text as [|ch rest IH]; [done|].
      change (String ch rest +:+ more) with (String ch (rest +:+ more)).
      cbn [String.length]. by rewrite IH. }
    rewrite Hlen in Hm. lia.
Qed.

Section StoreExtras.
Context `{Collaborators}.

(** X3: after any [readFile] that found the file, the session's row for
    the path holds the hash of the current content and the time of this
    call, whichever branch was taken. *)
Theorem read_records_hash_and_time c fs now filePath db C r c' db' :
  fs !! resolve filePath = Some C →
  readFile c fs now filePath db = (r, c', db') →
  session_reads db' !! (sessionId c, resolve filePath)
  = Some {| sr_hash := contentHash C; sr_read_at := now |}.
Proof.
  intros Hfs Hcall. read_cases Hcall c db;
    destruct Hpost as [_ _ _ Hreads _ _ _ _ _];
    try match goal with Hptr : session_reads db !! _ = _ |- _ =>
      rewrite <- Hreads in Hptr end;
    simplify_eq.
  - unfold insert_or_replace_session_read; cbn [session_reads].
    by rewrite lookup_insert_eq.
  - unfold update_read_at; cbn [session_reads addTokensSaved].
    rewrite lookup_alter_eq.
    match goal with Hptr : session_reads db0 !! _ = Some _ |- _ =>
      rewrite Hptr end.
    cbn. congruence.
  - unfold store_current, update_session_read;
      cbn [session_reads addTokensSaved insert_or_ignore_file_version].
    rewrite lookup_alter_eq.
    match goal with Hptr : session_reads db0 !! _ = Some _ |- _ =>
      by rewrite Hptr end.
  - unfold store_current, update_session_read;
      cbn [session_reads insert_or_ignore_file_version].
    rewrite lookup_alter_eq.
    match goal with Hptr : session_reads db0 !! _ = Some _ |- _ =>
      by rewrite Hptr end.
Qed.

Lemma onFileDeleted_db c q db :
  (onFileDeleted c q db).2
  = delete_session_reads (resolve q)
      (delete_file_versions (resolve q) (init c db).2).
Proof. unfold onFileDeleted. by destruct (init c db). Qed.

(** X4: [onFileDeleted] removes every version of the path and every
    session's pointer to it, so the next [readFile] of the path, by any
    session, is answered as a first read. *)
Theorem purge_then_read_is_cold c c2 q fs now filePath C db :
  resolve q = resolve filePath →
  fs !! resolve filePath = Some C →
  (∀ h, file_versions (onFileDeleted c q db).2 !! (resolve filePath, h) = None)
  ∧ (∀ sid,
       session_reads (onFileDeleted c q db).2 !! (sid, resolve filePath) = None)
  ∧ (readFile c2 fs now filePath (onFileDeleted c q db).2).1.1
    = inr {| cached := false;
             content := C;
             diff := None;
             linesChanged := None;
             totalLines := Some (lineCount C);
             hash := contentHash C |}.
Proof.
  intros Hq Hfs. rewrite onFileDeleted_db, Hq.
  assert (∀ sid,
            session_reads
              (delete_session_reads (resolve filePath)
                 (delete_file_versions (resolve filePath) (init c db).2))
            !! (sid, resolve filePath) = None) as Hgone.
  { intros sid. unfold delete_session_reads; cbn [session_reads].
    apply map_lookup_filter_None. right. intros r _. cbn. tauto. }
  split_and!.
  - intros h. unfold delete_session_reads, delete_file_versions;
      cbn [file_versions].
    apply map_lookup_filter_None. right. intros v _. cbn. tauto.
  - exact Hgone.
  - by rewrite (readFile_cold _ _ _ _ _ C) by auto.
Qed.

(** X5: [onFileDeleted] touches nothing but the rows of its path: the
    versions and pointers of every other path, and all counters, stay as
    they are. *)
Theorem purge_keeps_other_paths c q db :
  (∀ path h, path ≠ resolve q →
     file_versions (onFileDeleted c q db).2 !! (path, h)
     = file_versions db !! (path, h))
  ∧ (∀ sid path, path ≠ resolve q →
       session_reads (onFileDeleted c q db).2 !! (sid, path)
       = session_reads db !! (sid, path))
  ∧ globalTokens (onFileDeleted c q db).2 = globalTokens db
  ∧ session_stats (onFileDeleted c q db).2 = session_stats db.
Proof.
  rewrite onFileDeleted_db.
  pose proof (init_inv c db _ _ (surjective_pairing (init c db)))
    as [_ _ Hvers Hreads Hss Hglob _ _ _].
  split_and!.
  - intros path h Hne. unfold delete_session_reads, delete_file_versions;
      cbn [file_versions]. rewrite Hvers.
    destruct (file_versions db !! (path, h)) as [v|] eqn:Hrow.
    + by apply map_lookup_filter_Some.
    + apply map_lookup_filter_None. by left.
  - intros sid path Hne. unfold delete_session_reads, delete_file_versions;
      cbn [session_reads]. rewrite Hreads.
    destruct (session_reads db !! (sid, path)) as [r|] eqn:Hrow.
    + by apply map_lookup_filter_Some.
    + apply map_lookup_filter_None. by left.
  - exact Hglob.
  - exact Hss.
Qed.

(** X6: after [clear], [getStats] of any session reports no tracked file
    and zero for both counters, and every [readFile] is answered as a
    first read. *)
Theorem clear_forgets_everything c c2 db :
  (getStats c2 (clear c db).2).1.1
  = {| filesTracked := 0; tokensSaved := 0; sessionTokensSaved := 0 |}
  ∧ (∀ fs now filePath C,
       fs !! resolve filePath = Some C →
       (readFile c2 fs now filePath (clear c db).2).1.1
       = inr {| cached := false;
                content := C;
                diff := None;
                linesChanged := None;
                totalLines := Some (lineCount C);
                hash := contentHash C |}).
Proof.
  assert (file_versions (clear c db).2 = ∅ ∧ session_reads (clear c db).2 = ∅)
    as [Hvers Hreads].
  { unfold clear. by destruct (init c db). }
  split.
  - destruct (getStats_reports c2 (clear c db).2) as (Hg & Hs & Hf).
    destruct (clear_counters c db (sessionId c2)) as [Hg0 Hs0].
    destruct (getStats c2 (clear c db).2) as [[st c3] db3].
    cbn [fst] in *. destruct st as [f g s]. cbn in Hg, Hs, Hf.
    rewrite Hg, Hs, Hf, Hg0, Hs0. unfold count_distinct_paths.
    rewrite Hvers. by rewrite dom_empty_L, set_map_empty, size_empty.
  - intros fs now filePath C Hfs.
    rewrite (readFile_cold _ _ _ _ _ C); [done..|].
    by rewrite Hreads, lookup_empty.
Qed.

(** X7: [init] is idempotent on the database: once any object has run
    it, a further [init], by the same or by another object, changes
    nothing, and the object that ran it stays as it is. *)
Theorem init_idempotent c c2 db :
  store_ok c db →
  (init c2 (init c db).2).2 = (init c db).2
  ∧ init (init c db).1 (init c db).2 = init c db.
Proof.
  intros Hok.
  pose proof (init_inv c db _ _ (surjective_pairing (init c db)))
    as [_ Hflag _ _ _ _ Hrow _ _]. specialize (Hrow Hok).
  split.
  - pose proof (init_inv c2 (init c db).2 _ _
                  (surjective_pairing (init c2 (init c db).2)))
      as [_ _ _ _ _ _ _ Hkept _]. by apply Hkept.
  - transitivity ((init c db).1, (init c db).2); [|by destruct (init c db)].
    unfold init at 1. by rewrite Hflag.
Qed.

End StoreExtras.

(** ** Sessions do not disturb each other *)

Section Isolation.
Context `{Collaborators}.

(** The answer of a read is fixed by the file, the session's own pointer
    and the version that pointer names. *)
Lemma readFile_answer_ext c fs now filePath db db' :
  session_reads db' !! (sessionId c, resolve filePath)
  = session_reads db !! (sessionId c, resolve filePath) →
  (∀ last, session_reads db !! (sessionId c, resolve filePath) = Some last →
           file_versions db' !! (resolve filePath, sr_hash last)
           = file_versions db !! (resolve filePath, sr_hash last)) →
  (readFile c fs now filePath db').1.1 = (readFile c fs now filePath db).1.1.
Proof.
  intros Hptr Hold.
  destruct (fs !! resolve filePath) as [C|] eqn:Hfs.
  2: { by rewrite !readFile_missing. }
  destruct (session_reads db !! (sessionId c, resolve filePath))
    as [last|] eqn:Hlast.
  2: { by rewrite !(readFile_cold _ _ _ _ _ C). }
  specialize (Hold last eq_refl).
  destruct (decide (sr_hash last = contentHash C)) as [Hsame|Hdiff].
  { by rewrite !(readFile_unchanged _ _ _ _ _ C last). }
  destruct (file_versions db !! (resolve filePath, sr_hash last))
    as [old|] eqn:Hrow.
  2: { by rewrite !(readFile_fallback _ _ _ _ _ C last) by auto. }
  destruct (dr_hasChanges (computeDiff (fv_content old) C filePath)) eqn:Hchg.
  - by rewrite !(readFile_diff _ _ _ _ _ C last old).
  - by rewrite !(readFile_fallback _ _ _ _ _ C last) by eauto.
Qed.

(** X8: a [readFile] by one session changes no row of [session_reads]
    other than that session's row for that path, and no other session's
    counter. *)
Theorem read_touches_only_own_rows c fs now filePath db r c' db' :
  readFile c fs now filePath db = (r, c', db') →
  (∀ sid path, (sid, path) ≠ (sessionId c, resolve filePath) →
     session_reads db' !! (sid, path) = session_reads db !! (sid, path))
  ∧ (∀ sid, sid ≠ sessionId c →
       sessionTokens sid db' = sessionTokens sid db).
Proof.
  intros Hcall. split.
  - intros sid path Hne. by eapply readFile_other_pointers.
  - destruct (readFile_savings _ _ _ _ _ _ _ _ Hcall)
      as (amount & _ & _ & Hothers & _). exact Hothers.
Qed.

(** X9: in a database whose pointers all name stored versions, what a
    session is answered does not depend on whether another session has
    just read, whatever that session read: the answer after the other
    session's [readFile] is the answer before it. *)
Theorem other_session_read_is_invisible
    c fs now filePath db r c' db' c2 fs2 now2 filePath2 :
  pointers_valid db →
  sessionId c2 ≠ sessionId c →
  readFile c fs now filePath db = (r, c', db') →
  (readFile c2 fs2 now2 filePath2 db').1.1
  = (readFile c2 fs2 now2 filePath2 db).1.1.
Proof.
  intros Hvalid Hsid Hcall. apply readFile_answer_ext.
  - eapply readFile_other_pointers; [exact Hcall|]. congruence.
  - intros last Hlast.
    destruct (proj1 (pointers_valid_lookup db) Hvalid _ _ _ Hlast)
      as [old Hold].
    rewrite Hold. by eapply readFile_versions_kept.
Qed.

End Isolation.

(** ** What the version table holds *)

Section Versions.
Context `{Collaborators}.

Lemma versions_consistent_lookup db :
  versions_consistent db ↔
  ∀ path h v, file_versions db !! (path, h) = Some v →
              contentHash (fv_content v) = h
              ∧ fv_lines v = lineCount (fv_content v).
Proof.
  unfold versions_consistent. rewrite map_Forall_lookup. split.
  - intros Hall path h v Hv. exact (Hall (path, h) v Hv).
  - intros Hall [path h] v Hv. exact (Hall path h v Hv).
Qed.

Lemma versions_consistent_insert path C now db :
  versions_consistent db →
  versions_consistent
    (insert_or_ignore_file_version path (contentHash C) C (lineCount C) now db).
Proof.
  rewrite !versions_consistent_lookup. intros Hall q h v.
  unfold insert_or_ignore_file_version; cbn [file_versions].
  destruct (file_versions db !! (path, contentHash C)) as [w|] eqn:Hrow.
  - apply Hall.
  - rewrite lookup_insert. case_decide as Hk.
    + intros [= <-]. by injection Hk as <- <-.
    + apply Hall.
Qed.

Lemma versions_consistent_ext db db' :
  file_versions db' = file_versions db →
  versions_consistent db → versions_consistent db'.
Proof. unfold versions_consistent. by intros ->. Qed.

Lemma exec_versions_consistent c op db :
  versions_consistent db → versions_consistent (exec c op db).2.
Proof.
  intros Hcons. rewrite exec_db.
  pose proof (init_inv c db _ _ (surjective_pairing (init c db)))
    as [_ _ Hvers _ _ _ _ _ _].
  pose proof (versions_consistent_ext db _ Hvers Hcons) as Hcons0.
  destruct op as [fs now filePath| | | |];
    [ | exact Hcons | | exact Hcons0 | ].
  - destruct (readFile c fs now filePath db) as [[r c'] db'] eqn:Hcall.
    cbn [snd]. clear Hvers. read_cases Hcall c db;
      destruct Hpost as [_ _ Hvers _ _ _ _ _ _];
      apply (versions_consistent_ext db db0 Hvers) in Hcons;
      first [ exact Hcons
            | by apply (versions_consistent_insert (resolve filePath) C now) ].
  - apply versions_consistent_lookup. intros path h v.
    unfold delete_session_reads, delete_file_versions; cbn [file_versions].
    rewrite map_lookup_filter_Some. intros [Hv _].
    by eapply versions_consistent_lookup.
  - apply versions_consistent_lookup. intros path h v. cbn [file_versions].
    by rewrite lookup_empty.
Qed.

(** X10: in every state reached from the empty database, each stored
    version sits under the hash of its own content and carries the line
    count of that content; every single call keeps this. *)
Theorem stored_versions_match_their_key :
  (∀ calls path h v,
     file_versions (run calls empty_db) !! (path, h) = Some v →
     contentHash (fv_content v) = h ∧ fv_lines v = lineCount (fv_content v))
  ∧ (∀ c op db, versions_consistent db → versions_consistent (exec c op db).2).
Proof.
  split; [|apply exec_versions_consistent].
  intros calls. apply versions_consistent_lookup.
  assert (versions_consistent empty_db) as Hinit.
  { apply versions_consistent_lookup. intros path h v. cbn.
    by rewrite lookup_empty. }
  revert Hinit. generalize empty_db.
  induction calls as [|[c op] rest IH]; intros db Hcons; [done|].
  cbn [run]. by apply IH, exec_versions_consistent.
Qed.

Lemma exec_versions_kept c op db k v :
  is_purge (c, op) = false →
  file_versions db !! k = Some v →
  file_versions (exec c op db).2 !! k = Some v.
Proof.
  intros Hop Hk. rewrite exec_db.
  pose proof (init_inv c db _ _ (surjective_pairing (init c db)))
    as [_ _ Hvers _ _ _ _ _ _].
  destruct op as [fs now filePath| | | |]; try discriminate.
  - destruct (readFile c fs now filePath db) as [[r c'] db'] eqn:Hcall.
    by eapply readFile_versions_kept.
  - done.
  - by rewrite Hvers.
Qed.

Lemma tracked_paths_elem db path :
  path ∈ tracked_paths db ↔ ∃ h, is_Some (file_versions db !! (path, h)).
Proof.
  unfold tracked_paths. rewrite elem_of_map. split.
  - intros ([p h] & -> & Hin%elem_of_dom). by exists h.
  - intros (h & Hin%elem_of_dom). by exists (path, h).
Qed.

(** X11: without [onFileDeleted] and [clear], no sequence of calls
    removes or changes a stored version, so the number of tracked files
    that [getStats] reports never drops. *)
Theorem versions_only_grow calls db :
  forallb (λ call, negb (is_purge call)) calls = true →
  (∀ k v, file_versions db !! k = Some v →
          file_versions (run calls db) !! k = Some v)
  ∧ count_distinct_paths db ≤ count_distinct_paths (run calls db).
Proof.
  intros Hcalls.
  assert (∀ k v, file_versions db !! k = Some v →
                 file_versions (run calls db) !! k = Some v) as Hkept.
  { revert db. induction calls as [|[c op] rest IH]; intros db k v Hk; [done|].
    cbn [forallb] in Hcalls. apply andb_prop in Hcalls as [Hop Hrest].
    apply negb_true_iff in Hop. cbn [run].
    by apply IH, exec_versions_kept. }
  split; [exact Hkept|].
  unfold count_distinct_paths. apply inj_le, subseteq_size.
  intros path. fold (tracked_paths db). fold (tracked_paths (run calls db)).
  rewrite !tracked_paths_elem. intros (h & v & Hv).
  exists h, v. by apply Hkept.
Qed.

End Versions.

(** ** The two counters *)

Lemma sum_insert_fresh (m : gmap (string * string) Z) k v :
  m !! k = None →
  map_fold (λ _ v acc, v + acc) 0 (<[k := v]> m)
  = v + map_fold (λ _ v acc, v + acc) 0 m.
Proof.
  intros Hk. apply (map_fold_insert_L (λ _ v acc, v + acc)); [|done].
  intros. lia.
Qed.

Lemma sum_insert_replace (m : gmap (string * string) Z) k v old :
  m !! k = Some old →
  map_fold (λ _ v acc, v + acc) 0 (<[k := v]> m)
  = map_fold (λ _ v acc, v + acc) 0 m - old + v.
Proof.
  intros Hk.
  rewrite <- (insert_delete_id m k old Hk) at 2.
  rewrite <- (insert_delete_eq m k v).
  rewrite !sum_insert_fresh by apply lookup_delete_eq. lia.
Qed.

Lemma session_total_addTokensSaved c tokens db :
  session_total (addTokensSaved c tokens db) = session_total db + tokens.
Proof.
  unfold session_total, addTokensSaved; cbn [session_stats].
  destruct (session_stats db !! (sessionId c, tokens_saved_key))
    as [v|] eqn:Hrow.
  - rewrite (sum_insert_replace _ _ _ v) by done. lia.
  - rewrite sum_insert_fresh by done. lia.
Qed.

Lemma counters_agree_addTokensSaved c tokens db :
  counters_agree db → counters_agree (addTokensSaved c tokens db).
Proof.
  intros [Hrow Hsum]. split.
  - by apply stats_row_addTokensSaved.
  - rewrite globalTokens_addTokensSaved, session_total_addTokensSaved by done.
    lia.
Qed.

Lemma counters_agree_ext db db' :
  stats db' = stats db → session_stats db' = session_stats db →
  counters_agree db → counters_agree db'.
Proof.
  unfold counters_agree, globalTokens, session_total. by intros -> ->.
Qed.

Section Counters.
Context `{Collaborators}.

Lemma exec_counters_agree c op db :
  counters_agree db → counters_agree (exec c op db).2.
Proof.
  intros Hagree. rewrite exec_db.
  pose proof (init_inv c db _ _ (surjective_pairing (init c db)))
    as [_ _ _ _ _ _ _ Hkept _]. specialize (Hkept (proj1 Hagree)).
  destruct op as [fs now filePath| | | |]; rewrite ?Hkept; try exact Hagree.
  - destruct (readFile c fs now filePath db) as [[r c'] db'] eqn:Hcall.
    cbn [snd]. read_cases Hcall c db; subst db0;
      first [ exact Hagree
            | apply (counters_agree_ext (addTokensSaved c (estimateTokens C) db));
                [done..|]; by apply counters_agree_addTokensSaved
            | apply counters_agree_addTokensSaved;
                by apply (counters_agree_ext db)
            | by apply (counters_agree_ext db) ].
  - destruct Hagree as [[g Hg] _]. split.
    + cbn [stats]. rewrite lookup_fmap, Hg. by eexists.
    + unfold globalTokens, session_total; cbn [stats session_stats].
      by rewrite lookup_fmap, Hg, map_fold_empty.
Qed.

(** X12: from the moment the store is initialised, the global counter is
    the sum of the sessions' counters, after any sequence of calls by any
    sessions, [clear] included. *)
Theorem global_counter_is_sum_of_sessions :
  (∀ calls,
     globalTokens (run calls (exec_schema empty_db))
     = session_total (run calls (exec_schema empty_db)))
  ∧ (∀ c op db, counters_agree db → counters_agree (exec c op db).2).
Proof.
  split; [|apply exec_counters_agree].
  intros calls.
  assert (counters_agree (exec_schema empty_db)) as Hinit.
  { split; [apply stats_row_exec_schema|]. by vm_compute. }
  revert Hinit. generalize (exec_schema empty_db).
  induction calls as [|[c op] rest IH]; intros db Hagree.
  - exact (proj2 Hagree).
  - cbn [run]. by apply IH, exec_counters_agree.
Qed.

End Counters.

(** ** Tracked files and diff bases *)

Section Tracking.
Context `{Collaborators}.

Lemma insert_or_ignore_tracked path hash content lines t db :
  tracked_paths (insert_or_ignore_file_version path hash content lines t db)
  = {[path]} ∪ tracked_paths db.
Proof.
  apply set_eq. intros q.
  rewrite elem_of_union, elem_of_singleton, !tracked_paths_elem.
  unfold insert_or_ignore_file_version; cbn [file_versions].
  destruct (file_versions db !! (path, hash)) as [w|] eqn:Hrow.
  - split; [by right|]. intros [->|Hq]; [|done]. exists hash. by rewrite Hrow.
  - split.
    + intros (h & v & Hv). apply lookup_insert_Some in Hv as [[Hk _]|[_ Hv]].
      * left. congruence.
      * right. by exists h, v.
    + intros [->|(h & v & Hv)].
      * exists hash. rewrite lookup_insert_eq. by eexists.
      * exists h, v. apply insert_or_ignore_kept with (path := path)
          (hash := hash) (content := content) (lines := lines) (t := t) in Hv.
        unfold insert_or_ignore_file_version in Hv; cbn [file_versions] in Hv.
        by rewrite Hrow in Hv.
Qed.

(** X13: in a database whose pointers name stored versions, a [readFile]
    that found the file makes its path tracked and changes the set of
    tracked paths in no other way: [filesTracked] grows by one for a path
    that had no version and stays as it is for a path that had one, however
    many versions of it are stored. *)
Theorem read_tracks_its_path c fs now filePath db C r c' db' :
  pointers_valid db →
  fs !! resolve filePath = Some C →
  readFile c fs now filePath db = (r, c', db') →
  tracked_paths db' = {[resolve filePath]} ∪ tracked_paths db
  ∧ count_distinct_paths db'
    = count_distinct_paths db
      + (if decide (resolve filePath ∈ tracked_paths db) then 0 else 1).
Proof.
  intros Hvalid Hfs Hcall.
  assert (tracked_paths db' = {[resolve filePath]} ∪ tracked_paths db) as Hset.
  { read_cases Hcall c db; destruct Hpost as [_ _ Hvers _ _ _ _ _ _];
      simplify_eq;
      assert (tracked_paths db0 = tracked_paths db) as <-
        by (unfold tracked_paths; by rewrite Hvers).
    - apply insert_or_ignore_tracked.
    - change (tracked_paths (update_read_at _ _ _ _)) with (tracked_paths db0).
      symmetry. apply subseteq_union_1_L, singleton_subseteq_l.
      apply tracked_paths_elem.
      match goal with Hptr : session_reads db !! _ = Some ?last |- _ =>
        exists (sr_hash last); rewrite Hvers;
        exact (proj1 (pointers_valid_lookup db) Hvalid _ _ _ Hptr) end.
    - apply insert_or_ignore_tracked.
    - apply insert_or_ignore_tracked. }
  split; [exact Hset|].
  unfold count_distinct_paths. fold (tracked_paths db) (tracked_paths db').
  rewrite Hset. case_decide as Hin.
  - rewrite subseteq_union_1_L by by apply singleton_subseteq_l. lia.
  - rewrite size_union by (by apply disjoint_singleton_l).
    rewrite size_singleton. lia.
Qed.

Lemma exec_pointer_kept sid absPath c op db r :
  is_purge (c, op) = false →
  is_read_of sid absPath (c, op) = false →
  session_reads db !! (sid, absPath) = Some r →
  session_reads (exec c op db).2 !! (sid, absPath) = Some r.
Proof.
  intros Hpurge Hread Hptr. rewrite exec_db.
  pose proof (init_inv c db _ _ (surjective_pairing (init c db)))
    as [_ _ _ Hreads _ _ _ _ _].
  destruct op as [fs now filePath| | | |]; try discriminate.
  - destruct (readFile c fs now filePath db) as [[r' c'] db'] eqn:Hcall.
    cbn [snd]. rewrite <- Hptr.
    eapply readFile_other_pointers; [exact Hcall|].
    unfold is_read_of in Hread. cbn [fst snd] in Hread.
    apply andb_false_iff in Hread as [Hne|Hne];
      apply String.eqb_neq in Hne; congruence.
  - done.
  - by rewrite Hreads.
Qed.

(** X14: a session's diff base outlives what other sessions do. If a
    session points at a stored version of a path, then after any calls
    that are neither [onFileDeleted], [clear] nor that session's own read
    of the path, its next read of changed content is still answered with
    the diff against that version. *)
Theorem diff_base_survives_other_sessions
    c fs now filePath C calls db last old :
  session_reads db !! (sessionId c, resolve filePath) = Some last →
  file_versions db !! (resolve filePath, sr_hash last) = Some old →
  forallb (λ call,
             negb (is_purge call)
             && negb (is_read_of (sessionId c) (resolve filePath) call))
          calls = true →
  fs !! resolve filePath = Some C →
  sr_hash last ≠ contentHash C →
  dr_hasChanges (computeDiff (fv_content old) C filePath) = true →
  (readFile c fs now filePath (run calls db)).1.1
  = inr {| cached := true;
           content := dr_diff (computeDiff (fv_content old) C filePath);
           diff := Some (dr_diff (computeDiff (fv_content old) C filePath));
           linesChanged :=
             Some (dr_linesChanged (computeDiff (fv_content old) C filePath));
           totalLines := Some (lineCount C);
           hash := contentHash C |}.
Proof.
  intros Hptr Hold Hcalls Hfs Hdiff Hchg.
  assert (session_reads (run calls db) !! (sessionId c, resolve filePath)
          = Some last
          ∧ file_versions (run calls db) !! (resolve filePath, sr_hash last)
            = Some old) as [Hptr' Hold'].
  { revert db Hptr Hold.
    induction calls as [|[c1 op] rest IH]; intros db Hptr Hold; [done|].
    cbn [forallb] in Hcalls. apply andb_prop in Hcalls as [Hop Hrest].
    apply andb_prop in Hop as [Hp Hr].
    apply negb_true_iff in Hp. apply negb_true_iff in Hr.
    cbn [run]. apply (IH Hrest).
    - by apply exec_pointer_kept.
    - by apply exec_versions_kept. }
  by rewrite (readFile_diff _ _ _ _ _ C last old).
Qed.

Lemma onFileDeleted_pointers_gone c q db sid :
  session_reads (onFileDeleted c q db).2 !! (sid, resolve q) = None.
Proof.
  rewrite onFileDeleted_db. unfold delete_session_reads; cbn [session_reads].
  apply map_lookup_filter_None. right. intros r _. cbn. tauto.
Qed.

(** X15: a watcher event for a file that still exists changes nothing in
    the store; an event for a file that is gone changes no counter and
    makes the next [readFile] of that path, by any session, a first
    read. *)
Theorem watcher_event_effect c fs filePath db :
  (is_Some (fs !! filePath) → handleChange c fs filePath db = (c, db))
  ∧ (fs !! filePath = None →
     globalTokens (handleChange c fs filePath db).2 = globalTokens db
     ∧ session_stats (handleChange c fs filePath db).2 = session_stats db
     ∧ ∀ c2 fs2 now path C,
         resolve path = resolve filePath →
         fs2 !! resolve path = Some C →
         (readFile c2 fs2 now path (handleChange c fs filePath db).2).1.1
         = inr {| cached := false;
                  content := C;
                  diff := None;
                  linesChanged := None;
                  totalLines := Some (lineCount C);
                  hash := contentHash C |}).
Proof.
  unfold handleChange. split.
  - intros [text ->]. reflexivity.
  - intros ->.
    pose proof (init_inv c db _ _ (surjective_pairing (init c db)))
      as [_ _ _ _ Hss Hglob _ _ _].
    split_and!.
    + by rewrite onFileDeleted_db.
    + by rewrite onFileDeleted_db.
    + intros c2 fs2 now path C Hpath Hfs2.
      rewrite (readFile_cold _ _ _ _ _ C); [done..|].
      rewrite Hpath. apply onFileDeleted_pointers_gone.
Qed.

End Tracking.

(** * The tool handlers *)

Section ToolFacts.
Context `{Collaborators} `{Runtime}.

Lemma getStats_initialized c db :
  initialized c = true →
  getStats c db
  = ({| filesTracked := count_distinct_paths db;
        tokensSaved := globalTokens db;
        sessionTokensSaved := sessionTokens (sessionId c) db |}, c, db).
Proof. intros Hflag. unfold getStats, init. by rewrite Hflag. Qed.

Lemma init_object c db :
  initialized (init c db).1 = true ∧ sessionId (init c db).1 = sessionId c.
Proof.
  by pose proof (init_inv c db _ _ (surjective_pairing (init c db)))
    as [? ? _ _ _ _ _ _ _].
Qed.

Lemma readFile_object c fs now filePath db :
  (readFile c fs now filePath db).1.2 = (init c db).1.
Proof.
  destruct (readFile c fs now filePath db) as [[r c'] db'] eqn:Hcall.
  by read_cases Hcall c db.
Qed.

(** X16: the handler of [read_file] leaves the database and the object
    exactly as the [readFile] it wraps leaves them; for a file that does
    not exist it returns [isError = true] with the text [Error: ] followed
    by the message of the error thrown; whenever [readFile] returns an
    answer the handler returns [isError = false]. *)
Theorem read_file_tool_follows_readFile c fs now path db :
  (read_file_tool c fs now path db).2 = (readFile c fs now path db).2
  ∧ (read_file_tool c fs now path db).1.2 = (readFile c fs now path db).1.2
  ∧ (fs !! resolve path = None →
     (read_file_tool c fs now path db).1.1
     = {| tr_text := "Error: " +:+ errorMessage (ENOENT (resolve path));
          tr_isError := true |})
  ∧ (∀ result,
       (readFile c fs now path db).1.1 = inr result →
       tr_isError (read_file_tool c fs now path db).1.1 = false).
Proof.
  pose proof (readFile_object c fs now path db) as Hobj.
  destruct (init_object c db) as [Hflag _].
  split_and!.
  - unfold read_file_tool.
    destruct (readFile c fs now path db) as [[[e|result] c'] db'].
    + done.
    + cbn [fst snd] in Hobj. subst c'.
      destruct (cached result); [|done].
      by rewrite getStats_initialized.
  - unfold read_file_tool.
    destruct (readFile c fs now path db) as [[[e|result] c'] db'].
    + done.
    + cbn [fst snd] in Hobj. subst c'.
      destruct (cached result); [|done].
      by rewrite getStats_initialized.
  - intros Hfs. unfold read_file_tool. by rewrite readFile_missing.
  - intros result Hanswer. unfold read_file_tool.
    destruct (readFile c fs now path db) as [[r c'] db'].
    cbn [fst] in Hanswer. subst r.
    destruct (cached result); [|done].
    by destruct (getStats c' db') as [[st c2] db2].
Qed.

(** X17: on a session's first read of a path the handler of [read_file]
    returns the content of the file, character for character, with no
    header and no footer. *)
Theorem read_file_tool_first_read_verbatim c fs now path db C :
  fs !! resolve path = Some C →
  session_reads db !! (sessionId c, resolve path) = None →
  (read_file_tool c fs now path db).1.1
  = {| tr_text := C; tr_isError := false |}.
Proof.
  intros Hfs Hptr. unfold read_file_tool.
  by rewrite (readFile_cold _ _ _ _ _ C).
Qed.

(** X18: when the file is unchanged since the session's last read, the
    handler of [read_file] returns the unchanged summary followed by the
    footer, and the footer shows the session's counter with this read's
    saving already added. *)
Theorem read_file_tool_unchanged_text c fs now path db C last :
  fs !! resolve path = Some C →
  session_reads db !! (sessionId c, resolve path) = Some last →
  sr_hash last = contentHash C →
  (read_file_tool c fs now path db).1.1
  = {| tr_text :=
         unchangedSummary (lineCount C) (estimateTokens C)
           +:+ savings_footer
                 (sessionTokens (sessionId c) db + estimateTokens C);
       tr_isError := false |}.
Proof.
  intros Hfs Hptr Hsame. unfold read_file_tool.
  destruct (init_object c db) as [Hflag Hsid].
  pose proof (init_inv c db _ _ (surjective_pairing (init c db)))
    as [_ _ _ _ Hss _ _ _ _].
  rewrite (readFile_unchanged _ _ _ _ _ C last) by done.
  cbn [unchangedAnswer cached linesChanged is_zero andb content].
  rewrite getStats_initialized by done. cbn [sessionTokensSaved].
  rewrite Hsid.
  change (sessionTokens (sessionId c) (update_read_at _ _ _ ?d))
    with (sessionTokens (sessionId c) d).
  rewrite sessionTokens_addTokensSaved.
  by rewrite (sessionTokens_ext _ db _ Hss).
Qed.

(** X19: when the file changed and the differ reports a non-empty diff
    with a non-zero count, the handler of [read_file] returns the header
    with the changed and total line counts, the diff, and the footer with
    the session's counter after this read. *)
Theorem read_file_tool_changed_text c fs now path db C last old :
  fs !! resolve path = Some C →
  session_reads db !! (sessionId c, resolve path) = Some last →
  sr_hash last ≠ contentHash C →
  file_versions db !! (resolve path, sr_hash last) = Some old →
  dr_hasChanges (computeDiff (fv_content old) C path) = true →
  dr_linesChanged (computeDiff (fv_content old) C path) ≠ 0 →
  dr_diff (computeDiff (fv_content old) C path) ≠ EmptyString →
  let d := computeDiff (fv_content old) C path in
  (read_file_tool c fs now path db).1.1
  = {| tr_text :=
         "[cachebro: " +:+ pretty (dr_linesChanged d)
           +:+ " lines changed out of " +:+ pretty (lineCount C)
           +:+ "]" +:+ nl +:+ dr_diff d
           +:+ savings_footer
                 (sessionTokens (sessionId c) db
                  + Z.max 0 (estimateTokens C - estimateTokens (dr_diff d)));
       tr_isError := false |}.
Proof.
  intros Hfs Hptr Hdiff Hold Hchg Hcount Htext d. unfold read_file_tool.
  destruct (init_object c db) as [Hflag Hsid].
  pose proof (init_inv c db _ _ (surjective_pairing (init c db)))
    as [_ _ _ _ Hss _ _ _ _].
  rewrite (readFile_diff _ _ _ _ _ C last old) by done. fold d.
  cbn [diffAnswer cached linesChanged totalLines diff content andb
       show_number default].
  assert (is_zero (Some (dr_linesChanged d)) = false) as ->.
  { unfold is_zero. fold d in Hcount. by destruct (dr_linesChanged d). }
  assert (truthy (Some (dr_diff d)) = true) as ->.
  { unfold truthy. fold d in Htext. by destruct (dr_diff d). }
  rewrite getStats_initialized by done. cbn [sessionTokensSaved].
  rewrite Hsid, sessionTokens_addTokensSaved.
  change (sessionTokens (sessionId c) (store_current _ _ _ _ ?d0))
    with (sessionTokens (sessionId c) d0).
  rewrite (sessionTokens_ext _ db _ Hss).
  by rewrite !append_assoc.
Qed.

Lemma read_files_section_spec c fs now path db :
  read_files_section c fs now path db
  = (match (readFile c fs now path db).1.1 with
     | inr result =>
         if cached result && is_zero (linesChanged result) then
           "=== " +:+ path +:+ " ===" +:+ nl +:+ content result
         else if cached result && truthy (diff result) then
           "=== " +:+ path +:+ " [" +:+ show_number (linesChanged result)
             +:+ " lines changed out of " +:+ show_number (totalLines result)
             +:+ "] ===" +:+ nl +:+ default EmptyString (diff result)
         else "=== " +:+ path +:+ " ===" +:+ nl +:+ content result
     | inl e =>
         "=== " +:+ path +:+ " ===" +:+ nl +:+ "Error: " +:+ errorMessage e
     end,
     (readFile c fs now path db).1.2, (readFile c fs now path db).2).
Proof.
  unfold read_files_section.
  by destruct (readFile c fs now path db) as [[[e|result] c'] db'].
Qed.

Lemma readFile_object_initialized c fs now path db :
  initialized c = true → (readFile c fs now path db).1.2 = c.
Proof.
  intros Hflag. rewrite readFile_object. unfold init. by rewrite Hflag.
Qed.

(** With an initialised object the loop is the sequence of reads: it
    leaves the database of [run], and its i-th section is the one built
    on the database the first i reads leave. *)
Lemma read_files_loop_spec c reads db :
  initialized c = true →
  (read_files_loop c reads db).1.2 = c
  ∧ (read_files_loop c reads db).2 = run (read_calls c reads) db
  ∧ length (read_files_loop c reads db).1.1 = length reads
  ∧ ∀ i fs now path,
      reads !! i = Some (fs, now, path) →
      (read_files_loop c reads db).1.1 !! i
      = Some (read_files_section c fs now path
                (run (read_calls c (take i reads)) db)).1.1.
Proof.
  intros Hflag. revert db.
  induction reads as [|[[fs0 now0] path0] rest IH]; intros db.
  - split_and!; [done..|]. intros i fs now path Hi.
    by rewrite lookup_nil in Hi.
  - cbn [read_files_loop].
    assert ((read_files_section c fs0 now0 path0 db).1.2 = c
            ∧ (read_files_section c fs0 now0 path0 db).2
              = (exec c (OpReadFile fs0 now0 path0) db).2) as [Hobj Hdb].
    { rewrite read_files_section_spec, exec_db. cbn [fst snd].
      by rewrite readFile_object_initialized. }
    destruct (read_files_section c fs0 now0 path0 db) as [[text c1] db1]
      eqn:Hsec.
    cbn [fst snd] in Hobj, Hdb. subst c1 db1.
    destruct (IH (exec c (OpReadFile fs0 now0 path0) db).2)
      as (Hc & Hrun & Hlen & Hnth).
    destruct (read_files_loop c rest (exec c (OpReadFile fs0 now0 path0) db).2)
      as [[results c2] db2].
    cbn [fst snd length] in *. split_and!; [done|done|by rewrite Hlen|].
    intros [|i] fs now path Hi.
    + injection Hi as -> -> ->. cbn. by rewrite Hsec.
    + cbn in Hi |- *. by apply Hnth.
Qed.

(** X20: called on the initialised store of the server, the handler of
    [read_files] never reports an error itself and leaves the database
    that reading the paths one by one leaves. Its text is the sections
    joined by blank lines, one section per requested path and in the order
    of the request, each built from the answer [readFile] gives for that
    path on the database left by the reads before it: the error message
    for a file that does not exist, the content under the path's title for
    a full or an unchanged answer, the diff under a title with the line
    counts for a diff answer. The footer follows exactly when the
    session's counter is positive after the batch. *)
Theorem read_files_tool_reports_every_path c reads db :
  initialized c = true →
  ∃ results,
    read_files_tool c reads db
    = ({| tr_text :=
            join (nl +:+ nl) results
              +:+ (if 0 <? sessionTokens (sessionId c)
                             (run (read_calls c reads) db)
                   then savings_footer
                          (sessionTokens (sessionId c)
                             (run (read_calls c reads) db))
                   else EmptyString);
          tr_isError := false |},
       c, run (read_calls c reads) db)
    ∧ length results = length reads
    ∧ ∀ i fs now path,
        reads !! i = Some (fs, now, path) →
        let answer :=
          (readFile c fs now path
             (run (read_calls c (take i reads)) db)).1.1 in
        (fs !! resolve path = None →
         results !! i
         = Some ("=== " +:+ path +:+ " ===" +:+ nl +:+ "Error: "
                   +:+ errorMessage (ENOENT (resolve path))))
        ∧ (∀ r, answer = inr r → cached r = false →
             results !! i
             = Some ("=== " +:+ path +:+ " ===" +:+ nl +:+ content r))
        ∧ (∀ r, answer = inr r → cached r = true →
             linesChanged r = Some 0 →
             results !! i
             = Some ("=== " +:+ path +:+ " ===" +:+ nl +:+ content r))
        ∧ (∀ r n d, answer = inr r → cached r = true →
             linesChanged r = Some n → n ≠ 0 →
             diff r = Some d → d ≠ EmptyString →
             results !! i
             = Some ("=== " +:+ path +:+ " [" +:+ pretty n
                       +:+ " lines changed out of "
                       +:+ show_number (totalLines r)
                       +:+ "] ===" +:+ nl +:+ d)).
Proof.
  intros Hflag.
  destruct (read_files_loop_spec c reads db Hflag)
    as (Hc & Hrun & Hlen & Hnth).
  exists (read_files_loop c reads db).1.1. split_and!.
  - unfold read_files_tool.
    destruct (read_files_loop c reads db) as [[results c1] db1].
    cbn [fst snd] in Hc, Hrun. subst c1 db1.
    by rewrite getStats_initialized.
  - exact Hlen.
  - intros i fs now path Hi answer. rewrite (Hnth i fs now path Hi).
    rewrite read_files_section_spec. cbn [fst]. fold answer.
    split_and!.
    + intros Hfs. subst answer. by rewrite readFile_missing.
    + intros r -> Hcached. by rewrite Hcached.
    + intros r -> Hcached Hzero. by rewrite Hcached, Hzero.
    + intros r n d -> Hcached Hn Hne Hd Hdne. rewrite Hcached, Hn, Hd.
      cbn [andb show_number default].
      assert (is_zero (Some n) = false) as -> by by destruct n.
      assert (truthy (Some d) = true) as -> by by destruct d.
      done.
Qed.

End ToolFacts.

(** * Repeated reads *)

Section Repeats.
Context `{Collaborators}.

(** X21: savings are counted on every repeated read: when a session that
    has seen the current content reads the unchanged file n more times, its
    counter grows by n times the estimate of the content. *)
Theorem repeated_rereads_add_up c fs filePath C nows db last :
  fs !! resolve filePath = Some C →
  session_reads db !! (sessionId c, resolve filePath) = Some last →
  sr_hash last = contentHash C →
  sessionTokens (sessionId c)
    (run (map (λ now, (c, OpReadFile fs now filePath)) nows) db)
  = sessionTokens (sessionId c) db
    + Z.of_nat (length nows) * estimateTokens C.
Proof.
  intros Hfs. revert db last.
  induction nows as [|now rest IH]; intros db last Hptr Hsame.
  - cbn. lia.
  - cbn [map run length]. rewrite exec_db.
    destruct (readFile c fs now filePath db) as [[r c'] db'] eqn:Hcall.
    cbn [snd].
    pose proof (readFile_pointer _ _ _ _ _ C _ _ _ Hcall Hfs) as Hnew.
    destruct (session_reads db' !! (sessionId c, resolve filePath))
      as [last'|] eqn:Hlast'; [|discriminate]. injection Hnew as Hsame'.
    rewrite (IH db' last' Hlast' Hsame').
    pose proof (init_inv c db _ _ (surjective_pairing (init c db)))
      as [_ _ _ _ Hss _ _ _ _].
    rewrite (readFile_unchanged _ _ _ _ _ C last) in Hcall by done.
    injection Hcall as _ _ <-.
    change (sessionTokens (sessionId c) (update_read_at _ _ _ ?d))
      with (sessionTokens (sessionId c) d).
    rewrite sessionTokens_addTokensSaved, (sessionTokens_ext _ db _ Hss).
    lia.
Qed.

End Repeats.

(** * The further properties on the fixtures *)

Section MoreFixtures.
#[local] Existing Instance demoCollaborators.
#[local] Existing Instance demoRuntime.

Lemma read_records_hash_and_time_witness :
  session_reads (readFile session_1 fs_2 7 FILE_PATH db_read_once).2
    !! (sessionId session_1, resolve FILE_PATH)
  = Some {| sr_hash := contentHash CONTENT_2; sr_read_at := 7 |}.
Proof.
  apply (read_records_hash_and_time session_1 fs_2 7 FILE_PATH db_read_once
           CONTENT_2
           (readFile session_1 fs_2 7 FILE_PATH db_read_once).1.1
           (readFile session_1 fs_2 7 FILE_PATH db_read_once).1.2).
  - vm_compute. reflexivity.
  - vm_compute. reflexivity.
Defined.

Lemma purge_then_read_is_cold_witness :
  (∀ h, file_versions (onFileDeleted session_2 FILE_PATH db_read_once).2
          !! (resolve FILE_PATH, h) = None)
  ∧ (∀ sid,
       session_reads (onFileDeleted session_2 FILE_PATH db_read_once).2
         !! (sid, resolve FILE_PATH) = None)
  ∧ (readFile session_1 fs_1 3 FILE_PATH
       (onFileDeleted session_2 FILE_PATH db_read_once).2).1.1
    = inr {| cached := false;
             content := CONTENT_1;
             diff := None;
             linesChanged := None;
             totalLines := Some (lineCount CONTENT_1);
             hash := contentHash CONTENT_1 |}.
Proof.
  apply (purge_then_read_is_cold session_2 session_1 FILE_PATH fs_1 3
           FILE_PATH CONTENT_1 db_read_once).
  - reflexivity.
  - vm_compute. reflexivity.
Defined.

Lemma purge_keeps_other_paths_witness :
  file_versions (onFileDeleted session_1 OTHER_PATH db_read_once).2
    !! (FILE_PATH, contentHash CONTENT_1)
  = file_versions db_read_once !! (FILE_PATH, contentHash CONTENT_1).
Proof.
  apply (proj1 (purge_keeps_other_paths session_1 OTHER_PATH db_read_once)).
  vm_compute. discriminate.
Defined.

Lemma clear_forgets_everything_witness :
  (readFile session_1 fs_1 9 FILE_PATH (clear session_2 db_read_once).2).1.1
  = inr {| cached := false;
           content := CONTENT_1;
           diff := None;
           linesChanged := None;
           totalLines := Some (lineCount CONTENT_1);
           hash := contentHash CONTENT_1 |}.
Proof.
  apply (proj2 (clear_forgets_everything session_2 session_1 db_read_once)
           fs_1 9 FILE_PATH CONTENT_1).
  vm_compute. reflexivity.
Defined.

Lemma init_idempotent_witness :
  (init session_2 (init session_1 empty_db).2).2 = (init session_1 empty_db).2
  ∧ init (init session_1 empty_db).1 (init session_1 empty_db).2
    = init session_1 empty_db.
Proof.
  apply (init_idempotent session_1 session_2 empty_db).
  intros Hflag. vm_compute in Hflag. discriminate Hflag.
Defined.

Lemma read_touches_only_own_rows_witness :
  (∀ sid path, (sid, path) ≠ (sessionId session_2, resolve FILE_PATH) →
     session_reads (readFile session_2 fs_2 5 FILE_PATH db_read_once).2
       !! (sid, path)
     = session_reads db_read_once !! (sid, path))
  ∧ (∀ sid, sid ≠ sessionId session_2 →
       sessionTokens sid (readFile session_2 fs_2 5 FILE_PATH db_read_once).2
       = sessionTokens sid db_read_once).
Proof.
  apply (read_touches_only_own_rows session_2 fs_2 5 FILE_PATH db_read_once
           (readFile session_2 fs_2 5 FILE_PATH db_read_once).1.1
           (readFile session_2 fs_2 5 FILE_PATH db_read_once).1.2).
  vm_compute. reflexivity.
Defined.

(** Session 2 reads the changed file; session 1 is answered the same diff
    as if session 2 had not read. *)
Lemma other_session_read_is_invisible_witness :
  (readFile session_1 fs_2 6 FILE_PATH
     (readFile session_2 fs_2 5 FILE_PATH db_read_once).2).1.1
  = (readFile session_1 fs_2 6 FILE_PATH db_read_once).1.1.
Proof.
  apply (other_session_read_is_invisible session_2 fs_2 5 FILE_PATH
           db_read_once
           (readFile session_2 fs_2 5 FILE_PATH db_read_once).1.1
           (readFile session_2 fs_2 5 FILE_PATH db_read_once).1.2
           (readFile session_2 fs_2 5 FILE_PATH db_read_once).2
           session_1 fs_2 6 FILE_PATH).
  - compute_done.
  - vm_compute. discriminate.
  - vm_compute. reflexivity.
Defined.

Lemma stored_versions_match_their_key_witness :
  contentHash (fv_content version_1) = demoHash CONTENT_1
  ∧ fv_lines version_1 = lineCount (fv_content version_1).
Proof.
  apply (proj1 stored_versions_match_their_key calls_session_1 FILE_PATH).
  vm_compute. reflexivity.
Defined.

Lemma versions_only_grow_witness :
  (∀ k v, file_versions db_read_once !! k = Some v →
          file_versions (run calls_session_1 db_read_once) !! k = Some v)
  ∧ count_distinct_paths db_read_once
    ≤ count_distinct_paths (run calls_session_1 db_read_once).
Proof.
  apply (versions_only_grow calls_session_1 db_read_once).
  vm_compute. reflexivity.
Defined.

Lemma global_counter_is_sum_of_sessions_witness :
  counters_agree (exec session_2 (OpReadFile fs_1 8 FILE_PATH)
                    db_two_sessions).2.
Proof.
  apply (proj2 global_counter_is_sum_of_sessions
           session_2 (OpReadFile fs_1 8 FILE_PATH) db_two_sessions).
  split.
  - vm_compute. by eexists.
  - vm_compute. reflexivity.
Defined.

Lemma read_tracks_its_path_witness :
  tracked_paths (readFile session_1 fs_both 4 OTHER_PATH db_read_once).2
  = {[resolve OTHER_PATH]} ∪ tracked_paths db_read_once
  ∧ count_distinct_paths
      (readFile session_1 fs_both 4 OTHER_PATH db_read_once).2
    = count_distinct_paths db_read_once
      + (if decide (resolve OTHER_PATH ∈ tracked_paths db_read_once)
         then 0 else 1).
Proof.
  apply (read_tracks_its_path session_1 fs_both 4 OTHER_PATH db_read_once
           CONTENT_2
           (readFile session_1 fs_both 4 OTHER_PATH db_read_once).1.1
           (readFile session_1 fs_both 4 OTHER_PATH db_read_once).1.2).
  - compute_done.
  - vm_compute. reflexivity.
  - vm_compute. reflexivity.
Defined.

(** Session 2 rereads and then sees the change before session 1 does. *)
Lemma diff_base_survives_other_sessions_witness :
  (readFile session_1 fs_2 9 FILE_PATH
     (run [(session_2, OpReadFile fs_1 5 FILE_PATH);
           (session_2, OpReadFile fs_2 6 FILE_PATH);
           (session_2, OpGetStats)] db_two_sessions)).1.1
  = inr {| cached := true;
           content := dr_diff (computeDiff CONTENT_1 CONTENT_2 FILE_PATH);
           diff := Some (dr_diff (computeDiff CONTENT_1 CONTENT_2 FILE_PATH));
           linesChanged :=
             Some (dr_linesChanged
                     (computeDiff CONTENT_1 CONTENT_2 FILE_PATH));
           totalLines := Some (lineCount CONTENT_2);
           hash := contentHash CONTENT_2 |}.
Proof.
  apply (diff_base_survives_other_sessions session_1 fs_2 9 FILE_PATH
           CONTENT_2
           [(session_2, OpReadFile fs_1 5 FILE_PATH);
            (session_2, OpReadFile fs_2 6 FILE_PATH);
            (session_2, OpGetStats)] db_two_sessions last_1 version_1).
  - vm_compute. reflexivity.
  - vm_compute. reflexivity.
  - vm_compute. reflexivity.
  - vm_compute. reflexivity.
  - vm_compute. discriminate.
  - vm_compute. reflexivity.
Defined.

Lemma watcher_event_effect_witness :
  handleChange session_1 fs_1 FILE_PATH db_read_once
  = (session_1, db_read_once).
Proof.
  apply (proj1 (watcher_event_effect session_1 fs_1 FILE_PATH db_read_once)).
  vm_compute. by eexists.
Defined.

Lemma read_file_tool_follows_readFile_witness :
  (read_file_tool session_1 fs_1 4 OTHER_PATH db_read_once).1.1
  = {| tr_text := "Error: " +:+ errorMessage (ENOENT (resolve OTHER_PATH));
       tr_isError := true |}.
Proof.
  apply (proj1 (proj2 (proj2 (read_file_tool_follows_readFile
                                session_1 fs_1 4 OTHER_PATH db_read_once)))).
  vm_compute. reflexivity.
Defined.

Lemma read_file_tool_first_read_verbatim_witness :
  (read_file_tool session_1 fs_1 1 FILE_PATH empty_db).1.1
  = {| tr_text := CONTENT_1; tr_isError := false |}.
Proof.
  apply (read_file_tool_first_read_verbatim session_1 fs_1 1 FILE_PATH
           empty_db CONTENT_1).
  - vm_compute. reflexivity.
  - vm_compute. reflexivity.
Defined.

Lemma read_file_tool_unchanged_text_witness :
  (read_file_tool session_1 fs_1 2 FILE_PATH db_read_once).1.1
  = {| tr_text :=
         unchangedSummary (lineCount CONTENT_1) (estimateTokens CONTENT_1)
           +:+ savings_footer
                 (sessionTokens (sessionId session_1) db_read_once
                  + estimateTokens CONTENT_1);
       tr_isError := false |}.
Proof.
  apply (read_file_tool_unchanged_text session_1 fs_1 2 FILE_PATH db_read_once
           CONTENT_1 last_1).
  - vm_compute. reflexivity.
  - vm_compute. reflexivity.
  - vm_compute. reflexivity.
Defined.

Lemma read_file_tool_changed_text_witness :
  let d := computeDiff CONTENT_1 CONTENT_2 FILE_PATH in
  (read_file_tool session_1 fs_2 3 FILE_PATH db_read_once).1.1
  = {| tr_text :=
         "[cachebro: " +:+ pretty (dr_linesChanged d)
           +:+ " lines changed out of " +:+ pretty (lineCount CONTENT_2)
           +:+ "]" +:+ nl +:+ dr_diff d
           +:+ savings_footer
                 (sessionTokens (sessionId session_1) db_read_once
                  + Z.max 0 (estimateTokens CONTENT_2
                             - estimateTokens (dr_diff d)));
       tr_isError := false |}.
Proof.
  apply (read_file_tool_changed_text session_1 fs_2 3 FILE_PATH db_read_once
           CONTENT_2 last_1 version_1).
  - vm_compute. reflexivity.
  - vm_compute. reflexivity.
  - vm_compute. discriminate.
  - vm_compute. reflexivity.
  - vm_compute. reflexivity.
  - vm_compute. discriminate.
  - vm_compute. discriminate.
Defined.

Lemma read_files_tool_reports_every_path_witness :
  ∃ results,
    read_files_tool server_session batch_reads db_server
    = ({| tr_text :=
            join (nl +:+ nl) results
              +:+ (if 0 <? sessionTokens (sessionId server_session)
                             (run (read_calls server_session batch_reads)
                                  db_server)
                   then savings_footer
                          (sessionTokens (sessionId server_session)
                             (run (read_calls server_session batch_reads)
                                  db_server))
                   else EmptyString);
          tr_isError := false |},
       server_session, run (read_calls server_session batch_reads) db_server)
    ∧ length results = length batch_reads
    ∧ ∀ i fs now path,
        batch_reads !! i = Some (fs, now, path) →
        let answer :=
          (readFile server_session fs now path
             (run (read_calls server_session (take i batch_reads))
                  db_server)).1.1 in
        (fs !! resolve path = None →
         results !! i
         = Some ("=== " +:+ path +:+ " ===" +:+ nl +:+ "Error: "
                   +:+ errorMessage (ENOENT (resolve path))))
        ∧ (∀ r, answer = inr r → cached r = false →
             results !! i
             = Some ("=== " +:+ path +:+ " ===" +:+ nl +:+ content r))
        ∧ (∀ r, answer = inr r → cached r = true →
             linesChanged r = Some 0 →
             results !! i
             = Some ("=== " +:+ path +:+ " ===" +:+ nl +:+ content r))
        ∧ (∀ r n d, answer = inr r → cached r = true →
             linesChanged r = Some n → n ≠ 0 →
             diff r = Some d → d ≠ EmptyString →
             results !! i
             = Some ("=== " +:+ path +:+ " [" +:+ pretty n
                       +:+ " lines changed out of "
                       +:+ show_number (totalLines r)
                       +:+ "] ===" +:+ nl +:+ d)).
Proof.
  apply (read_files_tool_reports_every_path server_session batch_reads
           db_server).
  reflexivity.
Defined.

(** The third path of the batch is read although the second does not
    exist, and is answered as unchanged since the first. *)
Example read_files_batch_on_fixture :
  tr_text (read_files_tool server_session batch_reads db_server).1.1
  = join (nl +:+ nl)
      ["=== " +:+ FILE_PATH +:+ " ===" +:+ nl +:+ CONTENT_1;
       "=== " +:+ OTHER_PATH +:+ " ===" +:+ nl
         +:+ "Error: ENOENT: no such file or directory, stat '"
         +:+ OTHER_PATH +:+ "'";
       "=== " +:+ FILE_PATH +:+ " ===" +:+ nl
         +:+ "[cachebro: unchanged, 3 lines, 24 tokens saved]"]
    +:+ savings_footer 24.
Proof. vm_compute. reflexivity. Qed.

Lemma repeated_rereads_add_up_witness :
  sessionTokens (sessionId session_1)
    (run (map (λ now, (session_1, OpReadFile fs_1 now FILE_PATH)) [2; 3; 4])
         db_read_once)
  = sessionTokens (sessionId session_1) db_read_once
    + Z.of_nat (length [2; 3; 4]) * estimateTokens CONTENT_1.
Proof.
  apply (repeated_rereads_add_up session_1 fs_1 FILE_PATH CONTENT_1 [2; 3; 4]
           db_read_once last_1).
  - vm_compute. reflexivity.
  - vm_compute. reflexivity.
  - vm_compute. reflexivity.
Defined.

Example read_files_on_fixture :
  tr_text (read_files_tool session_1
             [(fs_1, 1, FILE_PATH); (fs_1, 2, FILE_PATH)] empty_db).1.1
  = join (nl +:+ nl)
      ["=== " +:+ FILE_PATH +:+ " ===" +:+ nl +:+ CONTENT_1;
       "=== " +:+ FILE_PATH +:+ " ===" +:+ nl
         +:+ "[cachebro: unchanged, 3 lines, 24 tokens saved]"]
    +:+ savings_footer 24.
Proof. vm_compute. reflexivity. Qed.

End MoreFixtures.
